(** * NEL_Project: the search-algorithm hierarchy of [gpolnel.algorithms]

    A shallow embedding of [random_search.py], [population_based.py] and
    [genetic_algorithm.py].  Python objects become records, attribute
    assignment becomes a functional update of the instance, and every
    method runs in a small monad that threads the process-wide random
    generators and a trace of the calls made to the collaborators (the
    initializer and the problem instance), and that can raise. *)

From Stdlib Require Import String QArith ZArith List Bool Lia.
Import ListNotations.
Open Scope Z_scope.

Set Implicit Arguments.

(** ** Python values used by the algorithms *)

(** A representation is what the initializer hands back for one candidate:
    a one-dimensional [torch.Tensor] (numeric vector) or a Python list
    encoding a tree in prefix order. *)
Inductive Repr : Type :=
| Tensor (data : list Z)
| Tree (nodes : list Z).

(** [isinstance(r, torch.Tensor)] *)
Definition is_tensor (r : Repr) : bool :=
  match r with Tensor _ => true | Tree _ => false end.

(** [bool(r)], as evaluated by [if start_at:].  A list is true when it is
    not empty; a tensor with exactly one element is true when that element
    is not zero; for any other tensor torch raises ("Boolean value of
    Tensor with ... is ambiguous"), rendered by [None]. *)
Definition truth (r : Repr) : option bool :=
  match r with
  | Tensor [x] => Some (negb (x =? 0))
  | Tensor _ => None
  | Tree [] => Some false
  | Tree (_ :: _) => Some true
  end.

(** What is handed to [Population(...)]: a plain Python list of
    representations, or the two-dimensional tensor made by [torch.stack],
    kept as the list of its rows. *)
Inductive PopRepr : Type :=
| PyList (items : list Repr)
| Stacked (rows : list (list Z)).

Inductive Exn : Type :=
| IndexError
| TypeError
| RuntimeError
| AttributeError.

(** [torch.stack(l)]: every element must be a tensor, all of one size. *)
Fixpoint stack_rows (n : nat) (l : list Repr) : Exn + list (list Z) :=
  match l with
  | [] => inr []
  | Tensor d :: t =>
      if Nat.eqb (length d) n
      then match stack_rows n t with
           | inr rows => inr (d :: rows)
           | inl e => inl e
           end
      else inl RuntimeError
  | Tree _ :: _ => inl TypeError
  end.

Definition torch_stack (l : list Repr) : Exn + list (list Z) :=
  match l with
  | [] => inl RuntimeError
  | Tensor d :: _ => stack_rows (length d) l
  | Tree _ :: _ => inl TypeError
  end.

(** ** Collaborators outside the three modules *)

(** The two random-number libraries the constructor seeds, and the type of
    solution-space descriptors.  Their internals are not part of the
    repository: the sources only seed them; the generational step draws
    uniform values in the unit interval from [random]. *)
Class RandomLib : Type := {
  py_state : Type;
  torch_state : Type;
  SSpace : Type;
  random_seed : Z -> py_state;
  torch_manual_seed : Z -> torch_state;
  random_uniform : py_state -> Q * py_state
}.

Module Solution.
(** Modelled from the spec: the class [Solution] of
    [gpolnel.utils.solution], which is imported but is not among the
    sources.  It wraps one representation together with a fitness and a
    validity flag, both unset until the problem evaluates it. *)
Record t : Type := mk { repr_ : Repr; fit : option Z; valid : option bool }.

(** [Solution(repr_)] *)
Definition new (r : Repr) : t := {| repr_ := r; fit := None; valid := None |}.

(** Python truth value of the attribute [valid]. *)
Definition is_valid (s : t) : bool :=
  match valid s with Some true => true | _ => false end.
End Solution.

Module Population.
(** Modelled from the spec: the classes [Population] and [PopulationTree]
    of [gpolnel.utils.population], imported but not among the sources:
    an ordered collection of representations with parallel arrays of
    fitness values and validity flags; [tree] tells the subclass. *)
Record t : Type := mk {
  repr_ : PopRepr;
  fit : option (list Z);
  valid : option (list bool);
  tree : bool
}.

(** Modelled from the spec: the constructors [Population(pop_repr)] and
    [PopulationTree(pop_repr)]. *)
Definition new (p : PopRepr) : t :=
  {| repr_ := p; fit := None; valid := None; tree := false |}.
Definition new_tree (p : PopRepr) : t :=
  {| repr_ := p; fit := None; valid := None; tree := true |}.

(** Modelled from the spec: the members in order ([pop[i]]), which are
    the items of the list, or the rows of the stacked tensor, each a
    one-dimensional tensor again. *)
Definition members (p : t) : list Repr :=
  match repr_ p with
  | PyList items => items
  | Stacked rows => map Tensor rows
  end.

(** Modelled from the spec: [len(pop)]. *)
Definition len (p : t) : nat := length (members p).

(** [a] is strictly better than [b]. *)
Definition better (min_ : bool) (a b : Z) : bool :=
  if min_ then a <? b else b <? a.

(** Index of the first best value of [l], scanning from index [i] with
    the best so far [bv] at index [bi] ([argmin] or [argmax]). *)
Fixpoint argbest_from (min_ : bool) (i bi : nat) (bv : Z) (l : list Z) : nat :=
  match l with
  | [] => bi
  | x :: t =>
      if better min_ x bv
      then argbest_from min_ (S i) i x t
      else argbest_from min_ (S i) bi bv t
  end.

Definition argbest (min_ : bool) (l : list Z) : option nat :=
  match l with
  | [] => None
  | x :: t => Some (argbest_from min_ 1 0 x t)
  end.

(** Modelled from the spec: [Population.get_best_pop(min_)], which is not
    among the sources.  The best individual is the member of minimum
    fitness if [min_], of maximum fitness otherwise; it is returned as a
    Solution carrying that member's fitness and validity.  On a
    population that has no fitness, or no member at the index, it
    raises. *)
Definition get_best_pop (p : t) (min_ : bool) : Exn + Solution.t :=
  match fit p, valid p with
  | Some fs, Some vs =>
      match argbest min_ fs with
      | Some j =>
          match nth_error (members p) j, nth_error fs j, nth_error vs j with
          | Some r, Some f, Some v =>
              inr {| Solution.repr_ := r;
                     Solution.fit := Some f;
                     Solution.valid := Some v |}
          | _, _, _ => inl IndexError
          end
      | None => inl RuntimeError
      end
  | _, _ => inl TypeError
  end.
End Population.

(** Outcome of running a method: a value, a Python exception, or no
    outcome within the allotted number of loop iterations. *)
Inductive Res (A : Type) : Type :=
| Ok (a : A)
| Raise (e : Exn)
| OutOfFuel.
Arguments Raise {A} e.
Arguments OutOfFuel {A}.

(** ** The monad the methods run in *)

Section Effects.
Context {RL : RandomLib}.

(** The process-wide generators of [random] and [torch]. *)
Record Rngs : Type := { py : py_state; torch : torch_state }.

(** Keyword arguments of one call of the initializer; an absent keyword
    is [None]. *)
Record InitArgs : Type := {
  a_sspace : SSpace;
  a_device : option string;
  a_n_sols : option Z
}.

(** The initializer is one Python callable.  [_get_random_sol] takes what
    it returns as one representation ([draw_one]); [_initialize] of a
    population iterates what it returns with [list.extend]
    ([draw_many]).  Both read and advance the generators. *)
Record Initializer : Type := {
  draw_one : InitArgs -> Rngs -> Repr * Rngs;
  draw_many : InitArgs -> Rngs -> list Repr * Rngs
}.

(** The problem instance: [sspace], [min_], and the two evaluators, which
    set fitness and validity of what they are given.  Both are functions of
    the representation handed to them: they draw nothing from the
    generators. *)
Record Problem : Type := {
  sspace : SSpace;
  min_ : bool;
  evaluate_sol_fn : Repr -> Z * bool;
  evaluate_pop_fn : PopRepr -> list Z * list bool
}.

(** Calls observed at the boundary of the core. *)
Inductive Event : Type :=
| ETorchSeed (s : Z)
| ERandomSeed (s : Z)
| EInit (args : InitArgs)
| EEvalSol (r : Repr)
| EEvalPop (p : PopRepr).

(** A method reads and advances the generators, and yields a value
    together with the calls it made, in order; or it raises; or its loop
    has not finished. *)
Definition M (A : Type) : Type := Rngs -> Res (A * Rngs * list Event).

Definition ret {A} (a : A) : M A := fun g => Ok (a, g, []).
Definition raise {A} (e : Exn) : M A := fun _ => Raise e.
Definition bind {A B} (c : M A) (k : A -> M B) : M B :=
  fun g =>
    match c g with
    | Ok (a, g1, ev1) =>
        match k a g1 with
        | Ok (b, g2, ev2) => Ok (b, g2, ev1 ++ ev2)
        | Raise e => Raise e
        | OutOfFuel => OutOfFuel
        end
    | Raise e => Raise e
    | OutOfFuel => OutOfFuel
    end.
Definition lift_exn {A} (r : Exn + A) : M A :=
  match r with inr a => ret a | inl e => raise e end.

(** The call of the initializer, read as one representation. *)
Definition call_one (ini : Initializer) (args : InitArgs) : M Repr :=
  fun g =>
    let (r, g') := draw_one ini args g in Ok (r, g', [EInit args]).

(** The call of the initializer, read as a sequence of representations. *)
Definition call_many (ini : Initializer) (args : InitArgs) : M (list Repr) :=
  fun g =>
    let (rs, g') := draw_many ini args g in Ok (rs, g', [EInit args]).

(** The seeds [torch.manual_seed] accepts: the integers from [-2^63] to
    [2^64 - 1]. *)
Definition torch_seed_ok (s : Z) : bool :=
  (- 2 ^ 63 <=? s) && (s <=? 2 ^ 64 - 1).

(** [torch.manual_seed(s)] and [random.seed(s)]: each overwrites the
    state of its own generator.  [torch.manual_seed] raises [RuntimeError]
    for a seed outside its range; [random.seed] takes every integer. *)
Definition torch_manual_seed_call (s : Z) : M unit :=
  fun g =>
    if torch_seed_ok s
    then Ok (tt, {| py := py g; torch := torch_manual_seed s |}, [ETorchSeed s])
    else Raise RuntimeError.
Definition random_seed_call (s : Z) : M unit :=
  fun g =>
    Ok (tt, {| py := random_seed s; torch := torch g |}, [ERandomSeed s]).

(** [pi.evaluate_sol(sol)] *)
Definition evaluate_sol (pi : Problem) (sol : Solution.t) : M Solution.t :=
  fun g =>
    let (f, v) := evaluate_sol_fn pi (Solution.repr_ sol) in
    Ok ({| Solution.repr_ := Solution.repr_ sol;
           Solution.fit := Some f;
           Solution.valid := Some v |},
        g, [EEvalSol (Solution.repr_ sol)]).

(** [pi.evaluate_pop(pop)] *)
Definition evaluate_pop (pi : Problem) (pop : Population.t) : M Population.t :=
  fun g =>
    let (fs, vs) := evaluate_pop_fn pi (Population.repr_ pop) in
    Ok ({| Population.repr_ := Population.repr_ pop;
           Population.fit := Some fs;
           Population.valid := Some vs;
           Population.tree := Population.tree pop |},
        g, [EEvalPop (Population.repr_ pop)]).
End Effects.

Notation "x <- c ;; k" := (bind c (fun x => k))
  (at level 61, c at next level, right associativity).

(** ** random_search.py *)

Module random_search.
Section Methods.
Context {RL : RandomLib}.

(** Attributes of a [RandomSearch] object.  [pi], [initializer],
    [device] and [best_sol] are the ones set by the base class. *)
Record RandomSearch : Type := {
  pi : Problem;
  best_sol : option Solution.t;
  initializer : Initializer;
  seed : Z;
  device : string
}.

(** [self.best_sol = sol] *)
Definition set_best_sol (self : RandomSearch) (sol : Solution.t) : RandomSearch :=
  {| pi := pi self; best_sol := Some sol; initializer := initializer self;
     seed := seed self; device := device self |}.

(** Modelled from the spec: [SearchAlgorithm.__init__(pi, initializer,
    device)] of [gpolnel.algorithms.search_algorithm], not among the
    sources: it stores the problem instance, the initializer and the
    device; no best solution exists yet.  The seed attribute is set by
    [RandomSearch.__init__] right after. *)
Definition SearchAlgorithm__init__ (pi : Problem) (initializer : Initializer)
    (seed : Z) (device : string) : RandomSearch :=
  {| pi := pi; best_sol := None; initializer := initializer;
     seed := seed; device := device |}.

(** [RandomSearch.__init__(pi, initializer, seed=0, device="cpu")] *)
Definition __init__ (pi : Problem) (initializer : Initializer)
    (seed0 : Z) (device : string) : M RandomSearch :=
  let self := SearchAlgorithm__init__ pi initializer seed0 device in
  _ <- torch_manual_seed_call (seed self) ;;
  _ <- random_seed_call (seed self) ;;
  ret self.

Definition default_seed : Z := 0.
Definition default_device : string := "cpu"%string.

(** [RandomSearch._get_random_sol] *)
Definition _get_random_sol (self : RandomSearch) : M Solution.t :=
  repr_ <- call_one (initializer self)
             {| a_sspace := sspace (pi self);
                a_device := Some (device self);
                a_n_sols := None |} ;;
  let sol := Solution.new repr_ in
  sol <- evaluate_sol (pi self) sol ;;
  ret sol.

(** The loop [while not self.best_sol.valid: self.best_sol =
    self._get_random_sol()], run for at most [fuel] tests of its
    condition. *)
Fixpoint retry (fuel : nat) (self : RandomSearch) : M RandomSearch :=
  match fuel with
  | O => fun _ => OutOfFuel
  | S fuel' =>
      match best_sol self with
      | None => raise AttributeError
      | Some b =>
          if negb (Solution.is_valid b)
          then sol <- _get_random_sol self ;;
               retry fuel' (set_best_sol self sol)
          else ret self
      end
  end.

(** The [else] branch of [_initialize]. *)
Definition sample_until_valid (fuel : nat) (self : RandomSearch) : M RandomSearch :=
  sol <- _get_random_sol self ;;
  retry fuel (set_best_sol self sol).

(** [RandomSearch._initialize(start_at=None)].  The test [if start_at:]
    takes the truth value of the argument: [None] is false, and so is
    every representation whose [bool] is false. *)
Definition _initialize (fuel : nat) (self : RandomSearch)
    (start_at : option Repr) : M RandomSearch :=
  match start_at with
  | None => sample_until_valid fuel self
  | Some r =>
      match truth r with
      | None => raise RuntimeError
      | Some true =>
          let self := set_best_sol self (Solution.new r) in
          sol <- evaluate_sol (pi self) (Solution.new r) ;;
          ret (set_best_sol self sol)
      | Some false => sample_until_valid fuel self
      end
  end.
End Methods.
End random_search.

(** ** population_based.py *)

Module population_based.
Import random_search.
Section Methods.
Context {RL : RandomLib}.

(** A mutation operator: a representation to a new one, drawing from
    the generators. *)
Definition Mutator : Type := Repr -> Rngs -> Repr * Rngs.

(** Attributes of a [PopulationBased] object: those inherited from
    [RandomSearch], then [mutator], [pop_size] and [pop]. *)
Record PopulationBased : Type := {
  base : RandomSearch;
  mutator : Mutator;
  pop_size : Z;
  pop : option Population.t
}.

(** [self.pop = p] and [self.best_sol = sol] *)
Definition set_pop (self : PopulationBased) (p : Population.t) : PopulationBased :=
  {| base := base self; mutator := mutator self;
     pop_size := pop_size self; pop := Some p |}.
Definition set_best (self : PopulationBased) (sol : Solution.t) : PopulationBased :=
  {| base := set_best_sol (base self) sol; mutator := mutator self;
     pop_size := pop_size self; pop := pop self |}.

(** [PopulationBased.__init__(pi, initializer, mutator, pop_size=100,
    seed=0, device="cpu")] *)
Definition __init__ (pi : Problem) (initializer : Initializer)
    (mutator : Mutator) (pop_size : Z) (seed : Z) (device : string)
    : M PopulationBased :=
  b <- random_search.__init__ pi initializer seed device ;;
  ret {| base := b; mutator := mutator; pop_size := pop_size; pop := None |}.

Definition default_pop_size : Z := 100.

(** [PopulationBased._set_best_sol] *)
Definition _set_best_sol (self : PopulationBased) : M PopulationBased :=
  match pop self with
  | None => raise AttributeError
  | Some p =>
      b <- lift_exn (Population.get_best_pop p (min_ (pi (base self)))) ;;
      ret (set_best self b)
  end.

(** [PopulationBased._set_pop(pop_repr)] *)
Definition _set_pop (self : PopulationBased) (pop_repr : PopRepr) : M PopulationBased :=
  let self := set_pop self (Population.new pop_repr) in
  p <- evaluate_pop (pi (base self)) (Population.new pop_repr) ;;
  let self := set_pop self p in
  _set_best_sol self.

(** The classes that inherit [_initialize]: each says where its
    [PopulationBased] attributes are and which [_set_pop] it runs. *)
Class PopulationClass (T : Type) : Type := {
  as_pb : T -> PopulationBased;
  set_pop_method : T -> PopRepr -> M T
}.

#[export] Instance PopulationBased_class : PopulationClass PopulationBased :=
  {| as_pb := fun self => self; set_pop_method := _set_pop |}.

(** [len(start_at)] and [pop_repr.extend(start_at)] when [start_at is
    not None]: the remaining count and the seeded list. *)
Definition seed_population (pop_size : Z) (start_at : option (list Repr))
    : Z * list Repr :=
  match start_at with
  | Some s => (pop_size - Z.of_nat (length s), [] ++ s)
  | None => (pop_size, [])
  end.

(** [PopulationBased._initialize(start_at=None)], for an object of class
    [T]; [self._set_pop] is the method of that class. *)
Definition _initialize {T : Type} {C : PopulationClass T} (self : T)
    (start_at : option (list Repr)) : M T :=
  let '(pop_size, pop_repr) := seed_population (pop_size (as_pb self)) start_at in
  drawn <- call_many (initializer (base (as_pb self)))
             {| a_sspace := sspace (pi (base (as_pb self)));
                a_device := None;
                a_n_sols := Some pop_size |} ;;
  let pop_repr := pop_repr ++ drawn in
  match pop_repr with
  | [] => raise IndexError
  | r0 :: _ =>
      if is_tensor r0
      then rows <- lift_exn (torch_stack pop_repr) ;;
           set_pop_method self (Stacked rows)
      else set_pop_method self (PyList pop_repr)
  end.
End Methods.
End population_based.

(** ** genetic_algorithm.py *)

Module genetic_algorithm.
Import random_search population_based.
Section Methods.
Context {RL : RandomLib}.

(** Selection and crossover operators, as section 4.4 of the
    specification types them: the selector takes the population and the
    number to select and returns parent pairs; crossover takes two
    parents and returns one or two offspring. *)
Definition Selector : Type :=
  Population.t -> Z -> Rngs -> list (Repr * Repr) * Rngs.
Definition Crossover : Type := Repr -> Repr -> Rngs -> list Repr * Rngs.

(** Attributes of a [GeneticAlgorithm] object. *)
Record GeneticAlgorithm : Type := {
  pb : PopulationBased;
  selector : Selector;
  p_m : Q;
  crossover : Crossover;
  p_c : Q;
  elitism : bool;
  reproduction : bool
}.

Definition set_pb (self : GeneticAlgorithm) (b : PopulationBased) : GeneticAlgorithm :=
  {| pb := b; selector := selector self; p_m := p_m self;
     crossover := crossover self; p_c := p_c self;
     elitism := elitism self; reproduction := reproduction self |}.

(** [GeneticAlgorithm.__init__(pi, initializer, selector, mutator,
    crossover, p_m=0.2, p_c=0.8, pop_size=100, elitism=True,
    reproduction=False, seed=0, device="cpu")] *)
Definition __init__ (pi : Problem) (initializer : Initializer)
    (selector : Selector) (mutator : Mutator) (crossover : Crossover)
    (p_m p_c : Q) (pop_size : Z) (elitism reproduction : bool)
    (seed : Z) (device : string) : M GeneticAlgorithm :=
  b <- population_based.__init__ pi initializer mutator pop_size seed device ;;
  ret {| pb := b; selector := selector; p_m := p_m; crossover := crossover;
         p_c := p_c; elitism := elitism; reproduction := reproduction |}.

(** [GeneticAlgorithm._set_pop(pop_repr)]: as in the parent class, with a
    [PopulationTree]. *)
Definition _set_pop (self : GeneticAlgorithm) (pop_repr : PopRepr) : M GeneticAlgorithm :=
  let self := set_pb self (set_pop (pb self) (Population.new_tree pop_repr)) in
  p <- evaluate_pop (pi (base (pb self))) (Population.new_tree pop_repr) ;;
  let self := set_pb self (set_pop (pb self) p) in
  b <- _set_best_sol (pb self) ;;
  ret (set_pb self b).

#[export] Instance GeneticAlgorithm_class : PopulationClass GeneticAlgorithm :=
  {| as_pb := pb; set_pop_method := _set_pop |}.
End Methods.
End genetic_algorithm.

(** ** The generational step *)

Section GenerationStep.
Context {RL : RandomLib}.
Import random_search population_based genetic_algorithm.

(** An operator that only reads and advances the generators. *)
Definition lift_rng {A : Type} (f : Rngs -> A * Rngs) : M A :=
  fun g => let (a, g') := f g in Ok (a, g', []).

(** [random.uniform(0, 1)] *)
Definition draw_uniform : M Q :=
  lift_rng (fun g => let (u, s) := random_uniform (py g) in
                     (u, {| py := s; torch := torch g |})).

(** [u < p] on rationals. *)
Definition below (u p : Q) : bool := negb (Qle_bool p u).

(** Modelled from the spec: the number of offspring to breed in stage 1,
    [pop_size] minus the slot of the elite individual. *)
Definition offspring_target (self : GeneticAlgorithm) : Z :=
  pop_size (pb self) - (if elitism self then 1 else 0).

(** Modelled from the spec: stage 2 of the generational step of section
    4.4, for one parent pair; the sources hold no method that breeds.  A
    uniform value is drawn; below [p_c] crossover makes the offspring;
    otherwise, with [reproduction], a parent is copied unchanged;
    otherwise the mutator is applied to a parent with probability
    [p_m]. *)
Definition vary (self : GeneticAlgorithm) (p1 p2 : Repr) : M (list Repr) :=
  u <- draw_uniform ;;
  if below u (p_c self)
  then lift_rng (crossover self p1 p2)
  else if reproduction self
       then ret [p1]
       else u' <- draw_uniform ;;
            if below u' (p_m self)
            then r <- lift_rng (mutator (pb self) p1) ;; ret [r]
            else ret [p1].

(** Modelled from the spec: stage 2 over all the selected pairs, in
    order. *)
Fixpoint breed (self : GeneticAlgorithm) (pairs : list (Repr * Repr)) : M (list Repr) :=
  match pairs with
  | [] => ret []
  | (p1, p2) :: rest =>
      offs <- vary self p1 p2 ;;
      more <- breed self rest ;;
      ret (offs ++ more)
  end.

(** Modelled from the spec: the comparison of stage 4 of section 4.4,
    between the previous [best_sol] and the best individual of the new
    population.  The better of the two is the new [best_sol]; the previous
    one stays unless the candidate is strictly better.  Comparing a
    fitness that is unset raises. *)
Definition keep_better (min_ : bool) (prev cand : Solution.t) : Exn + Solution.t :=
  match Solution.fit prev, Solution.fit cand with
  | Some fp, Some fc => inr (if Population.better min_ fc fp then cand else prev)
  | _, _ => inl TypeError
  end.

(** Modelled from the spec: the generational step of section 4.4, which
    is in none of the sources.  Stage 1: parent pairs are selected for
    [offspring_target] offspring.  Stage 2: the pairs are varied.  Stage
    3: with [elitism] the representation of the current [best_sol] is
    carried unchanged into the new population, in a slot of its own.
    Stage 4: the new population replaces the old one through [_set_pop]
    of the class, which evaluates it in one call, and [best_sol] is
    recomputed by comparing the best of the new population with the
    previous [best_sol]. *)
Definition generation_step (self : GeneticAlgorithm) : M GeneticAlgorithm :=
  match pop (pb self), best_sol (base (pb self)) with
  | Some p, Some b =>
      pairs <- lift_rng (selector self p (offspring_target self)) ;;
      offs <- breed self pairs ;;
      let new_repr := if elitism self then offs ++ [Solution.repr_ b] else offs in
      self1 <- genetic_algorithm._set_pop self (PyList new_repr) ;;
      match best_sol (base (pb self1)) with
      | Some cand =>
          best <- lift_exn (keep_better (min_ (pi (base (pb self1)))) b cand) ;;
          ret (set_pb self1 (set_best (pb self1) best))
      | None => raise AttributeError
      end
  | _, _ => raise AttributeError
  end.

(** Modelled from the spec: [n] generations in a row, the loop of a
    run. *)
Fixpoint generations (n : nat) (self : GeneticAlgorithm) : M GeneticAlgorithm :=
  match n with
  | O => ret self
  | S m => self' <- generation_step self ;; generations m self'
  end.
End GenerationStep.

(** ** A concrete environment

    Generators that count their draws, a one-point solution space, an
    initializer that hands out the draw counter as a one-node tree, and a
    problem whose fitness is the first element of a representation and whose
    feasible representations are those starting at 2 or above. *)

Module Demo.
Import random_search population_based genetic_algorithm.

#[export] Instance counters : RandomLib := {|
  py_state := nat;
  torch_state := nat;
  SSpace := unit;
  random_seed := Z.to_nat;
  torch_manual_seed := Z.to_nat;
  random_uniform := fun n => (Z.of_nat (n mod 10) # 10, S n)
|}.

Definition first_elt (r : Repr) : Z :=
  match r with
  | Tensor (x :: _) => x
  | Tree (x :: _) => x
  | _ => 0
  end.

Definition feasible (r : Repr) : bool := 2 <=? first_elt r.

Definition problem (minimize : bool) : Problem := {|
  sspace := tt;
  min_ := minimize;
  evaluate_sol_fn := fun r => (first_elt r, feasible r);
  evaluate_pop_fn := fun p =>
    let ms := Population.members (Population.new p) in
    (map first_elt ms, map feasible ms)
|}.

Definition advance (g : Rngs) (k : nat) : Rngs :=
  {| py := (py g + k)%nat; torch := torch g |}.

(** Draw number [i] is the tree [[i]]; a batch of [n] is the next [n]
    draws. *)
Definition counting : Initializer := {|
  draw_one := fun _ g => (Tree [Z.of_nat (py g)], advance g 1);
  draw_many := fun args g =>
    match a_n_sols args with
    | Some n =>
        (map (fun i => Tree [Z.of_nat i]) (seq (py g) (Z.to_nat n)),
         advance g (Z.to_nat n))
    | None => ([], g)
    end
|}.

(** An initializer none of whose draws is feasible. *)
Definition hopeless : Initializer := {|
  draw_one := fun _ g => (Tree [0], advance g 1);
  draw_many := fun _ g => ([], g)
|}.

(** The initializer of the scenario of section 8: the representations
    1, 2, 3, 4 in order, repeated as often as the count asks. *)
Definition cycle4 : Initializer := {|
  draw_one := fun _ g => (Tensor [1], g);
  draw_many := fun args g =>
    match a_n_sols args with
    | Some n =>
        (map (fun i => Tensor [1 + Z.of_nat (i mod 4)]) (seq 0 (Z.to_nat n)), g)
    | None => ([], g)
    end
|}.

Definition no_mutation : Mutator := fun r g => (r, g).

Definition g0 : Rngs := {| py := 0%nat; torch := 0%nat |}.

Definition rs (ini : Initializer) : RandomSearch := {|
  pi := problem true;
  best_sol := None;
  initializer := ini;
  seed := 0;
  device := "cpu"%string
|}.

Definition pbased (ini : Initializer) (n : Z) (dev : string) : PopulationBased := {|
  base := {| pi := problem true; best_sol := None; initializer := ini;
             seed := 0; device := dev |};
  mutator := no_mutation;
  pop_size := n;
  pop := None
|}.

(** A selector pairing each member with itself, a crossover returning
    its first parent, and a mutator that puts 9 in front. *)
Definition self_pairs : Selector :=
  fun p n g =>
    (firstn (Z.to_nat n) (map (fun r => (r, r)) (Population.members p)), g).
Definition first_parent : Crossover := fun p1 _ g => ([p1], g).
Definition worsen : Mutator :=
  fun r g => (match r with
              | Tensor d => Tensor (9 :: d)
              | Tree d => Tree (9 :: d)
              end, g).

Definition ga (ini : Initializer) (n : Z) : GeneticAlgorithm := {|
  pb := {| base := {| pi := problem true; best_sol := None; initializer := ini;
                      seed := 0; device := "cpu"%string |};
           mutator := worsen; pop_size := n; pop := None |};
  selector := self_pairs;
  p_m := 1;
  crossover := first_parent;
  p_c := 0;
  elitism := true;
  reproduction := false
|}.

(** The object [ga cycle4 4] once initialized: the stacked population
    1, 2, 3, 4 with its fitness values, and the member 1 as best. *)
Definition ga_ready : GeneticAlgorithm := {|
  pb := {| base := {| pi := problem true;
                      best_sol := Some {| Solution.repr_ := Tensor [1];
                                          Solution.fit := Some 1;
                                          Solution.valid := Some false |};
                      initializer := cycle4;
                      seed := 0; device := "cpu"%string |};
           mutator := worsen; pop_size := 4;
           pop := Some {| Population.repr_ := Stacked [[1]; [2]; [3]; [4]];
                          Population.fit := Some [1; 2; 3; 4];
                          Population.valid := Some [false; true; true; true];
                          Population.tree := true |} |};
  selector := self_pairs;
  p_m := 1;
  crossover := first_parent;
  p_c := 0;
  elitism := true;
  reproduction := false
|}.
End Demo.

(** ** Auxiliary definitions for the statements *)

Section DrawSequence.
Context {RL : RandomLib}.
Import random_search.

(** Keyword arguments of the call in [_get_random_sol]. *)
Definition single_args (self : RandomSearch) : InitArgs :=
  {| a_sspace := sspace (pi self);
     a_device := Some (device self);
     a_n_sols := None |}.

(** What one run of [_get_random_sol] yields from generators [g]. *)
Definition draw (self : RandomSearch) (g : Rngs) : Solution.t * Rngs :=
  let (r, g') := draw_one (initializer self) (single_args self) g in
  let (f, v) := evaluate_sol_fn (pi self) r in
  ({| Solution.repr_ := r; Solution.fit := Some f; Solution.valid := Some v |}, g').

(** The generators after [n] draws, the solution of draw number [n]
    (counting from 0), and the calls made by the first [n] draws. *)
Fixpoint gens_after (self : RandomSearch) (n : nat) (g : Rngs) : Rngs :=
  match n with
  | O => g
  | S m => gens_after self m (snd (draw self g))
  end.

Definition nth_sol (self : RandomSearch) (n : nat) (g : Rngs) : Solution.t :=
  fst (draw self (gens_after self n g)).

Fixpoint draw_events (self : RandomSearch) (n : nat) (g : Rngs) : list Event :=
  match n with
  | O => []
  | S m =>
      [EInit (single_args self); EEvalSol (Solution.repr_ (fst (draw self g)))]
        ++ draw_events self m (snd (draw self g))
  end.


Definition is_init (e : Event) : bool :=
  match e with EInit _ => true | _ => false end.

Definition is_eval_pop (e : Event) : bool :=
  match e with EEvalPop _ => true | _ => false end.

Definition is_eval_sol (e : Event) : bool :=
  match e with EEvalSol _ => true | _ => false end.

(** [sol] carries the fitness and validity the problem gives to its
    representation. *)
Definition evaluated_by (pi : Problem) (sol : Solution.t) : Prop :=
  Solution.fit sol = Some (fst (evaluate_sol_fn pi (Solution.repr_ sol))) /\
  Solution.valid sol = Some (snd (evaluate_sol_fn pi (Solution.repr_ sol))).

(** The configuration attributes of a [RandomSearch] object. *)
Definition same_config (self self' : RandomSearch) : Prop :=
  pi self' = pi self /\ initializer self' = initializer self /\
  seed self' = seed self /\ device self' = device self.
End DrawSequence.

Section PopulationStatements.
Context {RL : RandomLib}.
Import random_search population_based.

(** Keyword arguments of the batched call in [_initialize]. *)
Definition batch_args (self : PopulationBased) (n : Z) : InitArgs :=
  {| a_sspace := sspace (pi (base self));
     a_device := None;
     a_n_sols := Some n |}.

(** The count asked of the initializer and the list seeded from
    [start_at]. *)
Definition remaining (self : PopulationBased) (start_at : option (list Repr)) : Z :=
  fst (seed_population (pop_size self) start_at).
Definition seeded (start_at : option (list Repr)) : list Repr :=
  match start_at with Some s => s | None => [] end.

(** What the batched call returns from generators [g]. *)
Definition drawn (self : PopulationBased) (start_at : option (list Repr))
    (g : Rngs) : list Repr :=
  fst (draw_many (initializer (base self))
         (batch_args self (remaining self start_at)) g).

(** The events of a run, put after [ev]. *)
Definition prefix_events {A : Type} (ev : list Event)
    (r : Res (A * Rngs * list Event)) : Res (A * Rngs * list Event) :=
  match r with
  | Ok (a, g, ev2) => Ok (a, g, ev ++ ev2)
  | Raise e => Raise e
  | OutOfFuel => OutOfFuel
  end.

(** The population object after [pi.evaluate_pop]. *)
Definition evaluated (tree : bool) (pi : Problem) (pr : PopRepr) : Population.t :=
  {| Population.repr_ := pr;
     Population.fit := Some (fst (evaluate_pop_fn pi pr));
     Population.valid := Some (snd (evaluate_pop_fn pi pr));
     Population.tree := tree |}.

(** [v] is at least as good as [x]. *)
Definition le_best (min_ : bool) (v x : Z) : Prop :=
  if min_ then v <= x else x <= v.

(** [b] is a member of [p] of best fitness. *)
Definition best_of_population (min_ : bool) (p : Population.t) (b : Solution.t) : Prop :=
  exists (j : nat) (fs : list Z) (f : Z),
    Population.fit p = Some fs /\
    nth_error (Population.members p) j = Some (Solution.repr_ b) /\
    nth_error fs j = Some f /\
    Solution.fit b = Some f /\
    forall x, In x fs -> le_best min_ f x.

(** [torch.stack] accepts the list: when its first element is a tensor,
    all are tensors of that size. *)
Definition stackable (l : list Repr) : bool :=
  match l with
  | Tensor d :: _ =>
      forallb (fun r => match r with
                        | Tensor d' => Nat.eqb (length d') (length d)
                        | Tree _ => false
                        end) l
  | _ => true
  end.

(** The evaluator fills one fitness and one validity flag per member. *)
Definition parallel_arrays (pi : Problem) : Prop :=
  forall pr : PopRepr,
    length (fst (evaluate_pop_fn pi pr)) = Population.len (Population.new pr) /\
    length (snd (evaluate_pop_fn pi pr)) = Population.len (Population.new pr).

(** The problem gives a member the fitness [f] of its representation,
    whichever population it is evaluated in. *)
Definition deterministic_fitness (pi : Problem) (f : Repr -> Z) : Prop :=
  forall pr : PopRepr,
    fst (evaluate_pop_fn pi pr) = map f (Population.members (Population.new pr)).

(** The same population held in a [PopulationTree]. *)
Definition as_tree (p : Population.t) : Population.t :=
  {| Population.repr_ := Population.repr_ p;
     Population.fit := Population.fit p;
     Population.valid := Population.valid p;
     Population.tree := true |}.

(** The generators after the batched call. *)
Definition gens_after_batch (self : PopulationBased)
    (start_at : option (list Repr)) (g : Rngs) : Rngs :=
  snd (draw_many (initializer (base self))
         (batch_args self (remaining self start_at)) g).

(** The same configuration of two [PopulationBased] objects. *)
Definition same_pb_config (self self' : PopulationBased) : Prop :=
  same_config (base self) (base self') /\
  mutator self' = mutator self /\ pop_size self' = pop_size self.
End PopulationStatements.

(** ** RandomSearch: initialization *)

Section RandomSearchFacts.
Context {RL : RandomLib}.
Import random_search.

Lemma get_random_sol_eq (self : RandomSearch) (g : Rngs) :
  _get_random_sol self g =
  Ok (fst (draw self g), snd (draw self g),
      [EInit (single_args self); EEvalSol (Solution.repr_ (fst (draw self g)))]).
Proof.
  unfold _get_random_sol, draw, bind, call_one, evaluate_sol, ret.
  fold (single_args self).
  destruct (draw_one (initializer self) (single_args self) g) as [r g'].
  cbn. destruct (evaluate_sol_fn (pi self) r) as [f v]. reflexivity.
Qed.

Lemma draw_set_best (self : RandomSearch) (s : Solution.t) (g : Rngs) :
  draw (set_best_sol self s) g = draw self g.
Proof. reflexivity. Qed.

Lemma retry_valid (fuel : nat) (self : RandomSearch) (s : Solution.t) (g : Rngs) :
  Solution.is_valid s = true ->
  retry (S fuel) (set_best_sol self s) g = Ok (set_best_sol self s, g, []).
Proof. intros Hv. cbn. rewrite Hv. reflexivity. Qed.

Lemma retry_invalid (fuel : nat) (self : RandomSearch) (s : Solution.t) (g : Rngs) :
  Solution.is_valid s = false ->
  retry (S fuel) (set_best_sol self s) g =
  match retry fuel (set_best_sol self (fst (draw self g))) (snd (draw self g)) with
  | Ok (a, g2, ev2) =>
      Ok (a, g2, [EInit (single_args self);
                  EEvalSol (Solution.repr_ (fst (draw self g)))] ++ ev2)
  | Raise e => Raise e
  | OutOfFuel => OutOfFuel
  end.
Proof.
  intros Hv. cbn [retry best_sol set_best_sol]. rewrite Hv. cbn [negb].
  unfold bind at 1. rewrite get_random_sol_eq. reflexivity.
Qed.

Lemma sample_until_valid_eq (fuel : nat) (self : RandomSearch) (g : Rngs) :
  sample_until_valid fuel self g =
  match retry fuel (set_best_sol self (fst (draw self g))) (snd (draw self g)) with
  | Ok (a, g2, ev2) =>
      Ok (a, g2, [EInit (single_args self);
                  EEvalSol (Solution.repr_ (fst (draw self g)))] ++ ev2)
  | Raise e => Raise e
  | OutOfFuel => OutOfFuel
  end.
Proof.
  unfold sample_until_valid, bind. rewrite get_random_sol_eq. reflexivity.
Qed.

(** The loop leaves only with a feasible best solution. *)
Lemma retry_returns_valid (fuel : nat) :
  forall (self self' : RandomSearch) (g g' : Rngs) (ev : list Event),
    retry fuel self g = Ok (self', g', ev) ->
    exists sol, best_sol self' = Some sol /\ Solution.valid sol = Some true.
Proof.
  induction fuel as [|fuel IH]; intros self self' g g' ev H.
  - discriminate H.
  - cbn [retry] in H. destruct (best_sol self) as [b|] eqn:Hb.
    + destruct (Solution.is_valid b) eqn:Hv; cbn [negb] in H.
      * unfold ret in H. inversion H; subst. exists b. split; [assumption|].
        unfold Solution.is_valid in Hv.
        destruct (Solution.valid b) as [[|]|]; congruence.
      * unfold bind in H. rewrite get_random_sol_eq in H.
        destruct (retry fuel (set_best_sol self (fst (draw self g))) (snd (draw self g)))
          as [[[a g2] ev2]| |] eqn:Hr; try discriminate H.
        inversion H; subst. eapply IH. exact Hr.
    + discriminate H.
Qed.

(** With the first feasible draw at position [n] among the draws still
    to come, and an infeasible current best, the loop needs [n + 2] tests
    of its condition. *)
Lemma retry_first_valid (n : nat) :
  forall (self : RandomSearch) (s : Solution.t) (g : Rngs) (fuel : nat),
    Solution.is_valid s = false ->
    (forall i, (i < n)%nat -> Solution.is_valid (nth_sol self i g) = false) ->
    Solution.is_valid (nth_sol self n g) = true ->
    retry fuel (set_best_sol self s) g =
    if (S n <? fuel)%nat
    then Ok (set_best_sol self (nth_sol self n g), gens_after self (S n) g,
             draw_events self (S n) g)
    else OutOfFuel.
Proof.
  induction n as [|n IH]; intros self s g fuel Hs Hbefore Hat.
  - destruct fuel as [|fuel]; [reflexivity|].
    rewrite (retry_invalid fuel self s g Hs).
    destruct fuel as [|fuel]; [reflexivity|].
    rewrite retry_valid by exact Hat. reflexivity.
  - destruct fuel as [|fuel]; [reflexivity|].
    rewrite (retry_invalid fuel self s g Hs).
    rewrite (IH self (fst (draw self g)) (snd (draw self g)) fuel).
    + change (S (S n) <? S fuel)%nat with (S n <? fuel)%nat.
      destruct (S n <? fuel)%nat; reflexivity.
    + exact (Hbefore 0%nat (Nat.lt_0_succ n)).
    + intros i Hi. apply (Hbefore (S i)). lia.
    + exact Hat.
Qed.

Lemma retry_never_valid (fuel : nat) :
  forall (self : RandomSearch) (s : Solution.t) (g : Rngs),
    Solution.is_valid s = false ->
    (forall i, Solution.is_valid (nth_sol self i g) = false) ->
    retry fuel (set_best_sol self s) g = OutOfFuel.
Proof.
  induction fuel as [|fuel IH]; intros self s g Hs Hall; [reflexivity|].
  rewrite (retry_invalid fuel self s g Hs). rewrite IH; [reflexivity| |].
  - exact (Hall 0%nat).
  - intros i. exact (Hall (S i)).
Qed.

Lemma draw_events_init_count (self : RandomSearch) (n : nat) :
  forall g, length (filter is_init (draw_events self n g)) = n.
Proof.
  induction n as [|n IH]; intros g; [reflexivity|].
  cbn. rewrite IH. reflexivity.
Qed.

(** C1.  After [RandomSearch._initialize(start_at=None)] has returned,
    [best_sol] is set and its [valid] flag is true: the retry loop never
    hands back an infeasible best solution. *)
Theorem initialize_none_feasible
    (fuel : nat) (self self' : RandomSearch) (g g' : Rngs) (ev : list Event) :
  _initialize fuel self None g = Ok (self', g', ev) ->
  exists sol, best_sol self' = Some sol /\ Solution.valid sol = Some true.
Proof.
  cbn [_initialize]. rewrite sample_until_valid_eq. intros H.
  destruct (retry fuel (set_best_sol self (fst (draw self g))) (snd (draw self g)))
    as [[[a g2] ev2]| |] eqn:Hr; try discriminate H.
  inversion H; subst. eapply retry_returns_valid. exact Hr.
Qed.

(** C8.  [_initialize(start_at=None)] draws one solution after another
    and stops at the first feasible one, which it installs.  If draw
    number [n] (from 0) is the first feasible one, the call returns as
    soon as the loop is allowed [n + 1] tests, having called the
    initializer exactly [n + 1] times, and with fewer tests it has not
    returned; if no draw is feasible it returns for no number of tests. *)
Theorem initialize_retry_loop (self : RandomSearch) (g : Rngs) :
  (forall n : nat,
      (forall i, (i < n)%nat -> Solution.is_valid (nth_sol self i g) = false) ->
      Solution.is_valid (nth_sol self n g) = true ->
      (forall fuel, (n < fuel)%nat ->
         _initialize fuel self None g =
         Ok (set_best_sol self (nth_sol self n g), gens_after self (S n) g,
             draw_events self (S n) g)) /\
      (forall fuel, (fuel <= n)%nat -> _initialize fuel self None g = OutOfFuel) /\
      length (filter is_init (draw_events self (S n) g)) = S n) /\
  ((forall i, Solution.is_valid (nth_sol self i g) = false) ->
   forall fuel, _initialize fuel self None g = OutOfFuel).
Proof.
  split.
  - intros n Hbefore Hat.
    assert (Hrun : forall fuel, _initialize fuel self None g =
              if (n <? fuel)%nat
              then Ok (set_best_sol self (nth_sol self n g), gens_after self (S n) g,
                       draw_events self (S n) g)
              else OutOfFuel).
    { intros fuel. cbn [_initialize]. rewrite sample_until_valid_eq.
      destruct n as [|m].
      - destruct fuel as [|fuel]; [reflexivity|].
        rewrite retry_valid by exact Hat. reflexivity.
      - rewrite (retry_first_valid (n := m)).
        + change (gens_after self (S m) (snd (draw self g)))
            with (gens_after self (S (S m)) g).
          change (nth_sol self m (snd (draw self g))) with (nth_sol self (S m) g).
          destruct fuel as [|fuel]; [reflexivity|].
          change (S m <? S fuel)%nat with (m <? fuel)%nat.
          destruct (m <? fuel)%nat; reflexivity.
        + exact (Hbefore 0%nat (Nat.lt_0_succ m)).
        + intros i Hi. apply (Hbefore (S i)). lia.
        + exact Hat. }
    repeat split.
    + intros fuel Hf. rewrite Hrun.
      destruct (Nat.ltb_spec n fuel); [reflexivity | lia].
    + intros fuel Hf. rewrite Hrun.
      destruct (Nat.ltb_spec n fuel); [lia | reflexivity].
    + apply draw_events_init_count.
  - intros Hall fuel. cbn [_initialize]. rewrite sample_until_valid_eq.
    rewrite retry_never_valid; [reflexivity| |].
    + exact (Hall 0%nat).
    + intros i. exact (Hall (S i)).
Qed.

(** A start point whose truth value is true is wrapped, evaluated once
    and installed, without any call of the initializer. *)
Lemma initialize_truthy_start
    (fuel : nat) (self : RandomSearch) (r : Repr) (g : Rngs) :
  truth r = Some true ->
  _initialize fuel self (Some r) g =
  Ok (set_best_sol self
        {| Solution.repr_ := r;
           Solution.fit := Some (fst (evaluate_sol_fn (pi self) r));
           Solution.valid := Some (snd (evaluate_sol_fn (pi self) r)) |},
      g, [EEvalSol r]).
Proof.
  intros Ht. cbn [_initialize]. rewrite Ht.
  unfold bind, evaluate_sol, ret. cbn.
  destruct (evaluate_sol_fn (pi self) r) as [f v]. reflexivity.
Qed.

Lemma retry_frame (fuel : nat) :
  forall (self self' : RandomSearch) (g g' : Rngs) (ev : list Event),
    retry fuel self g = Ok (self', g', ev) -> same_config self self'.
Proof.
  induction fuel as [|fuel IH]; intros self self' g g' ev H; [discriminate H|].
  cbn [retry] in H. destruct (best_sol self) as [b|]; [|discriminate H].
  destruct (negb (Solution.is_valid b)).
  - unfold bind in H. rewrite get_random_sol_eq in H.
    destruct (retry fuel (set_best_sol self (fst (draw self g))) (snd (draw self g)))
      as [[[a g2] ev2]| |] eqn:Hr; try discriminate H.
    inversion H; subst. exact (IH _ _ _ _ _ Hr).
  - inversion H; subst. repeat split.
Qed.

Lemma rs_initialize_frame
    (fuel : nat) (self self' : RandomSearch) (start_at : option Repr)
    (g g' : Rngs) (ev : list Event) :
  _initialize fuel self start_at g = Ok (self', g', ev) -> same_config self self'.
Proof.
  assert (Hs : sample_until_valid fuel self g = Ok (self', g', ev) ->
               same_config self self').
  { rewrite sample_until_valid_eq.
    destruct (retry fuel (set_best_sol self (fst (draw self g))) (snd (draw self g)))
      as [[[a g2] ev2]| |] eqn:Hr; try discriminate.
    intros H; inversion H; subst. exact (retry_frame _ _ _ Hr). }
  destruct start_at as [r|]; cbn [_initialize]; [|exact Hs].
  destruct (truth r) as [[|]|] eqn:Ht; [| exact Hs | discriminate].
  pose proof (initialize_truthy_start fuel self r g Ht) as E.
  cbn [_initialize] in E. rewrite Ht in E. rewrite E.
  intros H; inversion H; subst. repeat split.
Qed.
End RandomSearchFacts.

(** ** Populations: stacking, the best member, and [_initialize] *)

Section PopulationFacts.
Context {RL : RandomLib}.
Import random_search population_based genetic_algorithm.

Lemma le_best_refl (min_ : bool) (v : Z) : le_best min_ v v.
Proof. destruct min_; cbn; lia. Qed.

Lemma better_le_best (min_ : bool) (a b x : Z) :
  Population.better min_ a b = true -> le_best min_ b x -> le_best min_ a x.
Proof. destruct min_; cbn; intros H1 H2; lia. Qed.

Lemma not_better_le_best (min_ : bool) (a b : Z) :
  Population.better min_ a b = false -> le_best min_ b a.
Proof. destruct min_; cbn; intros H; lia. Qed.

(** The scan returns an index holding a value that no value beats. *)
Lemma argbest_from_spec (min_ : bool) (l : list Z) :
  forall (pre : list Z) (bi : nat) (bv : Z),
    nth_error pre bi = Some bv ->
    (forall x, In x pre -> le_best min_ bv x) ->
    exists v,
      nth_error (pre ++ l) (Population.argbest_from min_ (length pre) bi bv l) = Some v /\
      forall x, In x (pre ++ l) -> le_best min_ v x.
Proof.
  induction l as [|a t IH]; intros pre bi bv Hbi Hpre.
  - cbn. rewrite app_nil_r. exists bv. split; assumption.
  - cbn [Population.argbest_from].
    assert (Hlen : S (length pre) = length (pre ++ [a])).
    { rewrite length_app. cbn. lia. }
    assert (Happ : pre ++ a :: t = (pre ++ [a]) ++ t).
    { rewrite <- app_assoc. reflexivity. }
    rewrite Hlen, Happ.
    destruct (Population.better min_ a bv) eqn:Hb.
    + apply IH.
      * rewrite nth_error_app2 by lia. rewrite Nat.sub_diag. reflexivity.
      * intros x Hx. apply in_app_or in Hx. destruct Hx as [Hx|[Hx|[]]].
        -- eapply better_le_best; [exact Hb | exact (Hpre x Hx)].
        -- subst x. apply le_best_refl.
    + apply IH.
      * rewrite nth_error_app1; [exact Hbi|].
        apply nth_error_Some. rewrite Hbi. discriminate.
      * intros x Hx. apply in_app_or in Hx. destruct Hx as [Hx|[Hx|[]]].
        -- exact (Hpre x Hx).
        -- subst x. apply not_better_le_best. exact Hb.
Qed.

Lemma argbest_spec (min_ : bool) (fs : list Z) (j : nat) :
  Population.argbest min_ fs = Some j ->
  exists v, nth_error fs j = Some v /\ forall x, In x fs -> le_best min_ v x.
Proof.
  destruct fs as [|x t]; [discriminate|]. cbn [Population.argbest].
  intros H. inversion H; subst.
  apply (argbest_from_spec min_ t [x] 0%nat (bv := x)).
  - reflexivity.
  - intros y [Hy|[]]. subst. apply le_best_refl.
Qed.

Lemma get_best_pop_spec (p : Population.t) (min_ : bool) (b : Solution.t) :
  Population.get_best_pop p min_ = inr b -> best_of_population min_ p b.
Proof.
  unfold Population.get_best_pop.
  destruct (Population.fit p) as [fs|] eqn:Hf; [|discriminate].
  destruct (Population.valid p) as [vs|]; [|discriminate].
  destruct (Population.argbest min_ fs) as [j|] eqn:Hj; [|discriminate].
  destruct (nth_error (Population.members p) j) as [r|] eqn:Hr; [|discriminate].
  destruct (nth_error fs j) as [f|] eqn:Hfj; [|discriminate].
  destruct (nth_error vs j) as [v|]; [|discriminate].
  intros H. inversion H; subst. exists j, fs, f. cbn.
  repeat split; try assumption; try reflexivity.
  destruct (argbest_spec min_ fs Hj) as [v' [Hv' Hmin]].
  rewrite Hfj in Hv'. inversion Hv'; subst. exact Hmin.
Qed.

Lemma get_best_pop_total (p : Population.t) (min_ : bool) (fs : list Z) (vs : list bool) :
  Population.fit p = Some fs ->
  Population.valid p = Some vs ->
  length fs = Population.len p ->
  length vs = Population.len p ->
  Population.len p <> 0%nat ->
  exists b, Population.get_best_pop p min_ = inr b.
Proof.
  intros Hf Hv Hlf Hlv Hne. unfold Population.get_best_pop. rewrite Hf, Hv.
  destruct (Population.argbest min_ fs) as [j|] eqn:Hj.
  - destruct (argbest_spec min_ fs Hj) as [v [Hvj _]].
    assert (Hlt : (j < length fs)%nat).
    { apply nth_error_Some. rewrite Hvj. discriminate. }
    rewrite Hvj.
    destruct (nth_error (Population.members p) j) as [r|] eqn:Hr.
    + destruct (nth_error vs j) as [b|] eqn:Hb.
      * eexists. reflexivity.
      * apply nth_error_None in Hb. lia.
    + apply nth_error_None in Hr. unfold Population.len in *. lia.
  - destruct fs; [cbn in Hlf; lia | discriminate Hj].
Qed.

Lemma stack_rows_members (n : nat) (l : list Repr) :
  forall rows, stack_rows n l = inr rows -> map Tensor rows = l.
Proof.
  induction l as [|r t IH]; intros rows H; cbn in H.
  - inversion H. reflexivity.
  - destruct r as [d|nodes]; [|discriminate].
    destruct (Nat.eqb (length d) n); [|discriminate].
    destruct (stack_rows n t) as [e|rows'] eqn:Ht; [discriminate|].
    inversion H; subst. cbn. rewrite (IH rows' eq_refl). reflexivity.
Qed.

Lemma torch_stack_members (l : list Repr) (rows : list (list Z)) :
  torch_stack l = inr rows -> map Tensor rows = l.
Proof.
  destruct l as [|[d|nodes] t]; cbn [torch_stack]; try discriminate.
  apply stack_rows_members.
Qed.

Lemma stack_rows_total (n : nat) (l : list Repr) :
  forallb (fun r => match r with
                    | Tensor d' => Nat.eqb (length d') n
                    | Tree _ => false
                    end) l = true ->
  exists rows, stack_rows n l = inr rows.
Proof.
  induction l as [|r t IH]; cbn; intros H.
  - eexists. reflexivity.
  - apply andb_true_iff in H. destruct H as [Hr Ht].
    destruct r as [d|nodes]; [|discriminate]. rewrite Hr.
    destruct (IH Ht) as [rows Hrows]. rewrite Hrows. eexists. reflexivity.
Qed.

Lemma torch_stack_total (r0 : Repr) (t : list Repr) :
  is_tensor r0 = true -> stackable (r0 :: t) = true ->
  exists rows, torch_stack (r0 :: t) = inr rows.
Proof.
  destruct r0 as [d|nodes]; [|discriminate]. intros _ H.
  cbn [torch_stack]. apply stack_rows_total. exact H.
Qed.

Lemma bind_unfold {A B : Type} (c : M A) (k : A -> M B) (g : Rngs) :
  bind c k g =
  match c g with
  | Ok (a, g1, ev1) => prefix_events ev1 (k a g1)
  | Raise e => Raise e
  | OutOfFuel => OutOfFuel
  end.
Proof.
  unfold bind, prefix_events. destruct (c g) as [[[a g1] ev1]| |]; reflexivity.
Qed.

(** [_set_pop] of [PopulationBased]: one evaluation of the whole
    population, then the best member. *)
Lemma set_pop_eq (self : PopulationBased) (pr : PopRepr) (g : Rngs) :
  population_based._set_pop self pr g =
  match Population.get_best_pop (evaluated false (pi (base self)) pr)
          (min_ (pi (base self))) with
  | inr b => Ok (set_best (set_pop self (evaluated false (pi (base self)) pr)) b,
                 g, [EEvalPop pr])
  | inl e => Raise e
  end.
Proof.
  unfold population_based._set_pop, evaluated. rewrite bind_unfold.
  unfold evaluate_pop. cbn -[Population.get_best_pop].
  destruct (evaluate_pop_fn (pi (base self)) pr) as [fs vs].
  cbn -[Population.get_best_pop].
  unfold _set_best_sol. cbn -[Population.get_best_pop]. rewrite bind_unfold.
  match goal with |- context [Population.get_best_pop ?p ?m] =>
    destruct (Population.get_best_pop p m) as [e|b] end; reflexivity.
Qed.

(** [_set_pop] of [GeneticAlgorithm]: the same with a [PopulationTree]. *)
Lemma ga_set_pop_eq (self : GeneticAlgorithm) (pr : PopRepr) (g : Rngs) :
  genetic_algorithm._set_pop self pr g =
  match Population.get_best_pop (evaluated true (pi (base (pb self))) pr)
          (min_ (pi (base (pb self)))) with
  | inr b =>
      Ok (set_pb self
            (set_best (set_pop (pb self) (evaluated true (pi (base (pb self))) pr)) b),
          g, [EEvalPop pr])
  | inl e => Raise e
  end.
Proof.
  unfold genetic_algorithm._set_pop, evaluated. rewrite bind_unfold.
  unfold evaluate_pop. cbn -[Population.get_best_pop].
  destruct (evaluate_pop_fn (pi (base (pb self))) pr) as [fs vs].
  cbn -[Population.get_best_pop].
  rewrite bind_unfold. unfold _set_best_sol. cbn -[Population.get_best_pop].
  rewrite bind_unfold.
  match goal with |- context [Population.get_best_pop ?p ?m] =>
    destruct (Population.get_best_pop p m) as [e|b] end; reflexivity.
Qed.

(** [_initialize]: the seeding, the one batched call, the stacking
    test, and the class's [_set_pop]. *)
Lemma initialize_unfold {T : Type} {C : PopulationClass T} (self : T)
    (start_at : option (list Repr)) (g : Rngs) :
  _initialize self start_at g =
  let l := seeded start_at ++ drawn (as_pb self) start_at g in
  let g1 := snd (draw_many (initializer (base (as_pb self)))
                   (batch_args (as_pb self) (remaining (as_pb self) start_at)) g) in
  prefix_events [EInit (batch_args (as_pb self) (remaining (as_pb self) start_at))]
    match l with
    | [] => Raise IndexError
    | r0 :: _ =>
        if is_tensor r0
        then match torch_stack l with
             | inr rows => set_pop_method self (Stacked rows) g1
             | inl e => Raise e
             end
        else set_pop_method self (PyList l) g1
    end.
Proof.
  unfold _initialize, drawn, remaining, batch_args, seeded.
  destruct start_at as [s|]; cbn [seed_population fst snd app];
    rewrite bind_unfold; unfold call_many;
    match goal with |- context [draw_many ?i ?a g] =>
      destruct (draw_many i a g) as [rs g1] end;
    cbn [fst snd]; cbv zeta;
    match goal with |- context [match ?l with [] => _ | _ :: _ => _ end] =>
      destruct l as [|r0 t] end; try reflexivity;
    destruct (is_tensor r0); try reflexivity;
    rewrite bind_unfold;
    match goal with |- context [torch_stack ?l] =>
      destruct (torch_stack l) as [e|rows] end; cbn;
    try reflexivity;
    match goal with |- context [set_pop_method ?s ?p ?g] =>
      destruct (set_pop_method s p g) as [[[a g2] ev2]| |] end; reflexivity.
Qed.

(** Whenever [_initialize] returns, it has handed [start_at] followed
    by the batch to the class's [_set_pop], after the single call of the
    initializer. *)
Lemma initialize_ok_inv {T : Type} {C : PopulationClass T} (self self' : T)
    (start_at : option (list Repr)) (g g' : Rngs) (ev : list Event) :
  _initialize self start_at g = Ok (self', g', ev) ->
  exists (pr : PopRepr) (ev2 : list Event),
    Population.members (Population.new pr) =
      seeded start_at ++ drawn (as_pb self) start_at g /\
    set_pop_method self pr
      (snd (draw_many (initializer (base (as_pb self)))
              (batch_args (as_pb self) (remaining (as_pb self) start_at)) g)) =
      Ok (self', g', ev2) /\
    ev = EInit (batch_args (as_pb self) (remaining (as_pb self) start_at)) :: ev2.
Proof.
  rewrite initialize_unfold. cbv zeta.
  destruct (seeded start_at ++ drawn (as_pb self) start_at g) as [|r0 t] eqn:Hl;
    [discriminate|].
  destruct (is_tensor r0).
  - destruct (torch_stack (r0 :: t)) as [e|rows] eqn:Hst; [discriminate|].
    match goal with |- context [set_pop_method ?s ?p ?g1] =>
      destruct (set_pop_method s p g1) as [[[a g2] ev2]| |] eqn:Hsp end;
      try discriminate.
    cbn. intros H. inversion H; subst. exists (Stacked rows), ev2.
    repeat split; [|exact Hsp].
    apply torch_stack_members. exact Hst.
  - match goal with |- context [set_pop_method ?s ?p ?g1] =>
      destruct (set_pop_method s p g1) as [[[a g2] ev2]| |] eqn:Hsp end;
      try discriminate.
    cbn. intros H. inversion H; subst. exists (PyList (r0 :: t)), ev2.
    repeat split. exact Hsp.
Qed.

Lemma firstn_length_app {A : Type} (a b : list A) :
  firstn (length a) (a ++ b) = a.
Proof. induction a as [|x a IH]; cbn; [destruct b|rewrite IH]; reflexivity. Qed.

Lemma skipn_length_app {A : Type} (a b : list A) :
  skipn (length a) (a ++ b) = b.
Proof. induction a as [|x a IH]; cbn; [reflexivity|exact IH]. Qed.

(** C3, amended.  For a [PopulationBased] object with [pop_size = N >= 1]
    and a [start_at] of [k <= N] representations (none: [k = 0]), if the
    initializer returns the [N - k] representations asked of it, the
    combined list can be stacked when it starts with a tensor, and the
    evaluator fills one fitness and one flag per member, then
    [_initialize] returns with a population of exactly [N] members: the
    first [k] are [start_at], the other [N - k] are the result of the
    single call of the initializer; [pop_size] itself is unchanged. *)
Theorem initialize_builds_population
    (self : PopulationBased) (start_at : option (list Repr)) (g : Rngs) :
  1 <= pop_size self ->
  Z.of_nat (length (seeded start_at)) <= pop_size self ->
  length (drawn self start_at g) =
    Z.to_nat (pop_size self - Z.of_nat (length (seeded start_at))) ->
  stackable (seeded start_at ++ drawn self start_at g) = true ->
  parallel_arrays (pi (base self)) ->
  exists (self' : PopulationBased) (g' : Rngs) (ev : list Event) (p : Population.t),
    _initialize self start_at g = Ok (self', g', ev) /\
    pop self' = Some p /\
    Population.len p = Z.to_nat (pop_size self) /\
    firstn (length (seeded start_at)) (Population.members p) = seeded start_at /\
    skipn (length (seeded start_at)) (Population.members p) = drawn self start_at g /\
    length (filter is_init ev) = 1%nat /\
    pop_size self' = pop_size self.
Proof.
  intros HN Hk Hcount Hstack Hpar.
  assert (Hlen : length (seeded start_at ++ drawn self start_at g)
                 = Z.to_nat (pop_size self)).
  { rewrite length_app, Hcount. lia. }
  assert (Hfin : forall (pr : PopRepr) (g1 : Rngs),
             Population.members (Population.new pr)
               = seeded start_at ++ drawn self start_at g ->
             exists b,
               population_based._set_pop self pr g1 =
               Ok (set_best (set_pop self (evaluated false (pi (base self)) pr)) b,
                   g1, [EEvalPop pr])).
  { intros pr g1 Hm. rewrite set_pop_eq.
    destruct (Hpar pr) as [Hf Hv].
    destruct (@get_best_pop_total (evaluated false (pi (base self)) pr)
                (min_ (pi (base self))) _ _ eq_refl eq_refl Hf Hv) as [b Hb].
    - change (Population.len (evaluated false (pi (base self)) pr))
        with (length (Population.members (Population.new pr))).
      rewrite Hm, Hlen. lia.
    - rewrite Hb. exists b. reflexivity. }
  rewrite initialize_unfold. cbv zeta. cbn [as_pb PopulationBased_class set_pop_method].
  destruct (seeded start_at ++ drawn self start_at g) as [|r0 t] eqn:Hl.
  { cbn in Hlen. lia. }
  set (g1 := snd (draw_many (initializer (base self))
                    (batch_args self (remaining self start_at)) g)).
  destruct (is_tensor r0) eqn:Ht.
  - destruct (@torch_stack_total r0 t Ht Hstack) as [rows Hrows]. rewrite Hrows.
    pose proof (@torch_stack_members _ _ Hrows) as Hm.
    destruct (Hfin (Stacked rows) g1 Hm) as [b Hb]. rewrite Hb. cbn [prefix_events app].
    do 4 eexists. split; [reflexivity|]. cbn [pop set_best set_pop pop_size].
    split; [reflexivity|].
    change (Population.members (evaluated false (pi (base self)) (Stacked rows)))
      with (map Tensor rows).
    unfold Population.len.
    change (Population.members (evaluated false (pi (base self)) (Stacked rows)))
      with (map Tensor rows).
    rewrite Hm, <- Hl.
    repeat split;
      [rewrite Hl; exact Hlen | apply firstn_length_app | apply skipn_length_app].
  - destruct (Hfin (PyList (r0 :: t)) g1 eq_refl) as [b Hb]. rewrite Hb.
    cbn [prefix_events app].
    do 4 eexists. split; [reflexivity|]. cbn [pop set_best set_pop pop_size].
    split; [reflexivity|].
    unfold Population.len.
    change (Population.members (evaluated false (pi (base self)) (PyList (r0 :: t))))
      with (r0 :: t).
    rewrite <- Hl.
    repeat split;
      [rewrite Hl; exact Hlen | apply firstn_length_app | apply skipn_length_app].
Qed.

(** What a returned [_initialize] of a [PopulationBased] object did. *)
Lemma pb_initialize_inv (self self' : PopulationBased)
    (start_at : option (list Repr)) (g g' : Rngs) (ev : list Event) :
  _initialize self start_at g = Ok (self', g', ev) ->
  exists (pr : PopRepr) (b : Solution.t),
    Population.members (Population.new pr) = seeded start_at ++ drawn self start_at g /\
    Population.get_best_pop (evaluated false (pi (base self)) pr)
      (min_ (pi (base self))) = inr b /\
    self' = set_best (set_pop self (evaluated false (pi (base self)) pr)) b /\
    ev = [EInit (batch_args self (remaining self start_at)); EEvalPop pr].
Proof.
  intros H. destruct (initialize_ok_inv _ _ _ H) as [pr [ev2 [Hm [Hsp Hev]]]].
  cbn [as_pb PopulationBased_class set_pop_method] in *.
  rewrite set_pop_eq in Hsp.
  destruct (Population.get_best_pop (evaluated false (pi (base self)) pr)
              (min_ (pi (base self)))) as [e|b] eqn:Hb; [discriminate|].
  inversion Hsp; subst. exists pr, b. repeat split; assumption.
Qed.

(** The same for a [GeneticAlgorithm] object. *)
Lemma ga_initialize_inv (self self' : GeneticAlgorithm)
    (start_at : option (list Repr)) (g g' : Rngs) (ev : list Event) :
  _initialize self start_at g = Ok (self', g', ev) ->
  exists (pr : PopRepr) (b : Solution.t),
    Population.members (Population.new pr)
      = seeded start_at ++ drawn (pb self) start_at g /\
    Population.get_best_pop (evaluated true (pi (base (pb self))) pr)
      (min_ (pi (base (pb self)))) = inr b /\
    self' = set_pb self
              (set_best (set_pop (pb self)
                           (evaluated true (pi (base (pb self))) pr)) b) /\
    ev = [EInit (batch_args (pb self) (remaining (pb self) start_at)); EEvalPop pr].
Proof.
  intros H. destruct (initialize_ok_inv _ _ _ H) as [pr [ev2 [Hm [Hsp Hev]]]].
  cbn [as_pb GeneticAlgorithm_class set_pop_method] in *.
  rewrite ga_set_pop_eq in Hsp.
  destruct (Population.get_best_pop (evaluated true (pi (base (pb self))) pr)
              (min_ (pi (base (pb self))))) as [e|b] eqn:Hb; [discriminate|].
  inversion Hsp; subst. exists pr, b. repeat split; assumption.
Qed.

(** After [_initialize] the population has been evaluated by one call of
    [pi.evaluate_pop] and [best_sol] is a member of best fitness. *)
Lemma pb_initialize_best (self self' : PopulationBased)
    (start_at : option (list Repr)) (g g' : Rngs) (ev : list Event) :
  _initialize self start_at g = Ok (self', g', ev) ->
  exists (p : Population.t) (b : Solution.t),
    pop self' = Some p /\ best_sol (base self') = Some b /\
    filter is_eval_pop ev = [EEvalPop (Population.repr_ p)] /\
    best_of_population (min_ (pi (base self))) p b.
Proof.
  intros H. destruct (pb_initialize_inv _ _ _ H) as [pr [b [Hm [Hb [Hs Hev]]]]].
  subst self' ev. exists (evaluated false (pi (base self)) pr), b.
  repeat split. apply get_best_pop_spec. exact Hb.
Qed.

Lemma ga_initialize_best (self self' : GeneticAlgorithm)
    (start_at : option (list Repr)) (g g' : Rngs) (ev : list Event) :
  _initialize self start_at g = Ok (self', g', ev) ->
  exists (p : Population.t) (b : Solution.t),
    pop (pb self') = Some p /\ best_sol (base (pb self')) = Some b /\
    Population.tree p = true /\
    filter is_eval_pop ev = [EEvalPop (Population.repr_ p)] /\
    best_of_population (min_ (pi (base (pb self)))) p b.
Proof.
  intros H. destruct (ga_initialize_inv _ _ _ H) as [pr [b [Hm [Hb [Hs Hev]]]]].
  subst self' ev. exists (evaluated true (pi (base (pb self))) pr), b.
  repeat split. apply get_best_pop_spec. exact Hb.
Qed.

(** Every call of the initializer made by [_initialize] of a population
    carries [sspace] and [n_sols], and no [device]. *)
Lemma initialize_call_args {T : Type} {C : PopulationClass T} (self self' : T)
    (start_at : option (list Repr)) (g g' : Rngs) (ev : list Event) :
  _initialize self start_at g = Ok (self', g', ev) ->
  exists ev2,
    ev = EInit {| a_sspace := sspace (pi (base (as_pb self)));
                  a_device := None;
                  a_n_sols := Some (pop_size (as_pb self)
                                    - Z.of_nat (length (seeded start_at))) |} :: ev2.
Proof.
  intros H. destruct (initialize_ok_inv _ _ _ H) as [pr [ev2 [_ [_ Hev]]]].
  exists ev2. rewrite Hev. unfold batch_args, remaining.
  destruct start_at as [s|]; cbn [seed_population fst seeded length].
  - reflexivity.
  - rewrite Z.sub_0_r. reflexivity.
Qed.

Lemma pb_initialize_frame (self self' : PopulationBased)
    (start_at : option (list Repr)) (g g' : Rngs) (ev : list Event) :
  _initialize self start_at g = Ok (self', g', ev) -> same_pb_config self self'.
Proof.
  intros H. destruct (pb_initialize_inv _ _ _ H) as [pr [b [_ [_ [Hs _]]]]].
  subst self'. repeat split.
Qed.

Lemma ga_initialize_frame (self self' : GeneticAlgorithm)
    (start_at : option (list Repr)) (g g' : Rngs) (ev : list Event) :
  _initialize self start_at g = Ok (self', g', ev) ->
  same_pb_config (pb self) (pb self') /\
  selector self' = selector self /\ crossover self' = crossover self /\
  p_m self' = p_m self /\ p_c self' = p_c self /\
  elitism self' = elitism self /\ reproduction self' = reproduction self.
Proof.
  intros H. destruct (ga_initialize_inv _ _ _ H) as [pr [b [_ [_ [Hs _]]]]].
  subst self'. repeat split.
Qed.

(** C10.  A call of [_initialize] that returns leaves [pi],
    [initializer], [seed] and [device] of a [RandomSearch] object, and
    these together with [mutator] and [pop_size] of a [PopulationBased]
    object (a [GeneticAlgorithm] object included), as they were: only
    [best_sol] and [pop] are assigned.  The count reduced by
    [len(start_at)] is a local variable. *)
Theorem initialize_frame :
  (forall (fuel : nat) (self self' : RandomSearch) (start_at : option Repr)
          (g g' : Rngs) (ev : list Event),
      random_search._initialize fuel self start_at g = Ok (self', g', ev) ->
      pi self' = pi self /\ initializer self' = initializer self /\
      seed self' = seed self /\ device self' = device self) /\
  (forall (self self' : PopulationBased) (start_at : option (list Repr))
          (g g' : Rngs) (ev : list Event),
      _initialize self start_at g = Ok (self', g', ev) ->
      pi (base self') = pi (base self) /\
      initializer (base self') = initializer (base self) /\
      mutator self' = mutator self /\
      pop_size self' = pop_size self /\
      seed (base self') = seed (base self) /\
      device (base self') = device (base self)) /\
  (forall (self self' : GeneticAlgorithm) (start_at : option (list Repr))
          (g g' : Rngs) (ev : list Event),
      _initialize self start_at g = Ok (self', g', ev) ->
      pi (base (pb self')) = pi (base (pb self)) /\
      initializer (base (pb self')) = initializer (base (pb self)) /\
      mutator (pb self') = mutator (pb self) /\
      pop_size (pb self') = pop_size (pb self) /\
      seed (base (pb self')) = seed (base (pb self)) /\
      device (base (pb self')) = device (base (pb self))).
Proof.
  split; [|split].
  - intros fuel self self' start_at g g' ev H.
    exact (rs_initialize_frame _ _ _ _ H).
  - intros self self' start_at g g' ev H.
    destruct (pb_initialize_frame _ _ _ H) as [[Hpi [Hini [Hseed Hdev]]] [Hmut Hps]].
    repeat split; assumption.
  - intros self self' start_at g g' ev H.
    destruct (ga_initialize_frame _ _ _ H)
      as [[[Hpi [Hini [Hseed Hdev]]] [Hmut Hps]] _].
    repeat split; assumption.
Qed.
End PopulationFacts.

(** ** Elitism *)

Section ElitismFacts.
Context {RL : RandomLib}.
Import random_search population_based genetic_algorithm.

Lemma lift_rng_ok {A : Type} (f : Rngs -> A * Rngs) (g : Rngs) :
  lift_rng f g = Ok (fst (f g), snd (f g), []).
Proof. unfold lift_rng. destruct (f g); reflexivity. Qed.

(** Variation of one pair always yields offspring and makes no call at
    the boundary. *)
Lemma vary_total (self : GeneticAlgorithm) (p1 p2 : Repr) (g : Rngs) :
  exists offs g', vary self p1 p2 g = Ok (offs, g', []).
Proof.
  unfold vary, draw_uniform. rewrite bind_unfold, lift_rng_ok. cbn [prefix_events app].
  destruct (below _ (p_c self)).
  - rewrite lift_rng_ok. do 2 eexists. reflexivity.
  - destruct (reproduction self).
    + do 2 eexists. reflexivity.
    + rewrite bind_unfold, lift_rng_ok. cbn [prefix_events app].
      destruct (below _ (p_m self)).
      * rewrite bind_unfold, lift_rng_ok. do 2 eexists. reflexivity.
      * do 2 eexists. reflexivity.
Qed.

Lemma breed_total (self : GeneticAlgorithm) (pairs : list (Repr * Repr)) :
  forall g, exists offs g', breed self pairs g = Ok (offs, g', []).
Proof.
  induction pairs as [|[p1 p2] rest IH]; intros g; cbn [breed].
  - do 2 eexists. reflexivity.
  - rewrite bind_unfold.
    destruct (vary_total self p1 p2 g) as [offs [g1 Hv]]. rewrite Hv.
    rewrite bind_unfold. destruct (IH g1) as [more [g2 Hb]]. rewrite Hb.
    do 2 eexists. reflexivity.
Qed.

(** With a fitness that depends on the representation only, the best
    member of an evaluated population carries the fitness of its own
    representation. *)
Lemma best_fit_consistent (pi : Problem) (f : Repr -> Z) (tree : bool)
    (pr : PopRepr) (b : Solution.t) :
  deterministic_fitness pi f ->
  Population.get_best_pop (evaluated tree pi pr) (min_ pi) = inr b ->
  Solution.fit b = Some (f (Solution.repr_ b)) /\
  forall r, In r (Population.members (Population.new pr)) ->
            le_best (min_ pi) (f (Solution.repr_ b)) (f r).
Proof.
  intros Hdet Hb. apply get_best_pop_spec in Hb.
  destruct Hb as [j [fs [fj [Hfs [Hmem [Hfj [Hfit Hmin]]]]]]].
  cbn in Hfs. inversion Hfs as [Hfs']. rewrite Hdet in Hfs'. subst fs.
  change (Population.members (evaluated tree pi pr))
    with (Population.members (Population.new pr)) in Hmem.
  rewrite nth_error_map, Hmem in Hfj. cbn in Hfj. inversion Hfj; subst fj.
  split; [exact Hfit|].
  intros r Hr. apply Hmin. apply in_map. exact Hr.
Qed.

(** [_initialize] leaves a [GeneticAlgorithm] object in the state the
    step starts from: a population, and a best solution carrying the
    fitness of its own representation. *)
Lemma ga_initialize_ready (self self' : GeneticAlgorithm) (f : Repr -> Z)
    (start_at : option (list Repr)) (g g' : Rngs) (ev : list Event) :
  deterministic_fitness (pi (base (pb self))) f ->
  _initialize self start_at g = Ok (self', g', ev) ->
  exists (p : Population.t) (b : Solution.t),
    pop (pb self') = Some p /\
    best_sol (base (pb self')) = Some b /\
    Solution.fit b = Some (f (Solution.repr_ b)) /\
    elitism self' = elitism self /\
    pi (base (pb self')) = pi (base (pb self)).
Proof.
  intros Hdet H. destruct (ga_initialize_inv _ _ _ H) as [pr [b [_ [Hb [Hs _]]]]].
  subst self'. exists (evaluated true (pi (base (pb self))) pr), b.
  destruct (best_fit_consistent true pr Hdet Hb) as [Hfit _].
  repeat split. exact Hfit.
Qed.

(** With a fitness that depends on the representation only, the best
    member of a population that holds the elite is by itself no worse
    than the elite. *)
Lemma population_best_no_worse_than_elite (pi : Problem) (f : Repr -> Z)
    (offs : list Repr) (r : Repr) (cand : Solution.t) :
  deterministic_fitness pi f ->
  Population.get_best_pop (evaluated true pi (PyList (offs ++ [r]))) (min_ pi)
    = inr cand ->
  Solution.fit cand = Some (f (Solution.repr_ cand)) /\
  le_best (min_ pi) (f (Solution.repr_ cand)) (f r).
Proof.
  intros Hdet Hc.
  destruct (best_fit_consistent true (PyList (offs ++ [r])) Hdet Hc) as [Hfit Hmin].
  split; [exact Hfit|]. apply Hmin. cbn. apply in_or_app. right. left. reflexivity.
Qed.

(** What a returned step has done: bred offspring, put them with the
    elite when [elitism] is set, ranked the new population and kept the
    better of its best and the previous [best_sol]. *)
Lemma generation_step_inv (self self' : GeneticAlgorithm) (g g' : Rngs)
    (ev : list Event) :
  generation_step self g = Ok (self', g', ev) ->
  exists (p : Population.t) (b cand : Solution.t) (offs : list Repr) (fp fc : Z),
    pop (pb self) = Some p /\
    best_sol (base (pb self)) = Some b /\
    Solution.fit b = Some fp /\
    Solution.fit cand = Some fc /\
    Population.get_best_pop
      (evaluated true (pi (base (pb self)))
         (PyList (if elitism self then offs ++ [Solution.repr_ b] else offs)))
      (min_ (pi (base (pb self)))) = inr cand /\
    self' = set_pb self
              (set_best
                 (set_pop (pb self)
                    (evaluated true (pi (base (pb self)))
                       (PyList (if elitism self
                                then offs ++ [Solution.repr_ b] else offs))))
                 (if Population.better (min_ (pi (base (pb self)))) fc fp
                  then cand else b)) /\
    ev = [EEvalPop (PyList (if elitism self
                            then offs ++ [Solution.repr_ b] else offs))].
Proof.
  unfold generation_step. intros H.
  destruct (pop (pb self)) as [p|] eqn:Hpop; [|discriminate H].
  destruct (best_sol (base (pb self))) as [b|] eqn:Hbest; [|discriminate H].
  rewrite bind_unfold, lift_rng_ok in H. cbn [prefix_events app] in H.
  rewrite bind_unfold in H.
  destruct (breed_total self
              (fst (selector self p (offspring_target self) g))
              (snd (selector self p (offspring_target self) g)))
    as [offs [g1 Hbr]].
  rewrite Hbr in H. cbn [prefix_events app] in H.
  set (pr := PyList (if elitism self then offs ++ [Solution.repr_ b] else offs)) in *.
  rewrite bind_unfold, ga_set_pop_eq in H.
  destruct (Population.get_best_pop (evaluated true (pi (base (pb self))) pr)
              (min_ (pi (base (pb self))))) as [e|cand] eqn:Hc; [discriminate H|].
  cbn [prefix_events pb set_pb base set_best best_sol set_best_sol pi set_pop] in H.
  rewrite bind_unfold in H. unfold keep_better in H.
  destruct (Solution.fit b) as [fp|] eqn:Hfp; [|discriminate H].
  destruct (Solution.fit cand) as [fc|] eqn:Hfc; [|discriminate H].
  cbn in H. inversion H; subst.
  exists p, b, cand, offs, fp, fc. repeat split; assumption.
Qed.

(** With an evaluator that fills one entry per member, a step on an
    initialized object with [elitism] returns. *)
Lemma generation_step_returns (self : GeneticAlgorithm) (p : Population.t)
    (b : Solution.t) (fb : Z) (g : Rngs) :
  elitism self = true ->
  pop (pb self) = Some p ->
  best_sol (base (pb self)) = Some b ->
  Solution.fit b = Some fb ->
  parallel_arrays (pi (base (pb self))) ->
  exists self' g' ev, generation_step self g = Ok (self', g', ev).
Proof.
  intros Hel Hpop Hbest Hfit Hpar.
  unfold generation_step. rewrite Hpop, Hbest, Hel.
  rewrite bind_unfold, lift_rng_ok. cbn [prefix_events app].
  rewrite bind_unfold.
  destruct (breed_total self
              (fst (selector self p (offspring_target self) g))
              (snd (selector self p (offspring_target self) g)))
    as [offs [g1 Hbr]].
  rewrite Hbr. cbn [prefix_events app].
  set (pr := PyList (offs ++ [Solution.repr_ b])).
  rewrite bind_unfold, ga_set_pop_eq.
  destruct (Hpar pr) as [Hlf Hlv].
  destruct (@get_best_pop_total (evaluated true (pi (base (pb self))) pr)
              (min_ (pi (base (pb self)))) _ _ eq_refl eq_refl Hlf Hlv) as [cand Hc].
  { unfold Population.len. cbn. rewrite length_app. cbn. lia. }
  rewrite Hc.
  cbn [prefix_events pb set_pb base set_best best_sol set_best_sol pi set_pop].
  rewrite bind_unfold. unfold keep_better. rewrite Hfit.
  destruct (get_best_pop_spec _ _ Hc) as [j [fs [fc [_ [_ [_ [Hfc _]]]]]]].
  rewrite Hfc. cbn. do 3 eexists. reflexivity.
Qed.

(** One returned step with [elitism] leaves a best solution no worse
    than the one it found. *)
Lemma elitism_step_aux (self self' : GeneticAlgorithm) (g g' : Rngs)
    (ev : list Event) (b : Solution.t) (fb : Z) :
  elitism self = true ->
  generation_step self g = Ok (self', g', ev) ->
  best_sol (base (pb self)) = Some b ->
  Solution.fit b = Some fb ->
  exists (b' : Solution.t) (fb' : Z),
    best_sol (base (pb self')) = Some b' /\
    Solution.fit b' = Some fb' /\
    le_best (min_ (pi (base (pb self)))) fb' fb /\
    elitism self' = true /\
    pi (base (pb self')) = pi (base (pb self)).
Proof.
  intros Hel H Hbest Hfit.
  destruct (generation_step_inv _ _ H)
    as [p [b0 [cand [offs [fp [fc [Hpop [Hb0 [Hfp [Hfc [Hc [Hs Hev]]]]]]]]]]]].
  rewrite Hbest in Hb0. inversion Hb0; subst b0.
  rewrite Hfit in Hfp. inversion Hfp; subst fp.
  subst self'.
  destruct (Population.better (min_ (pi (base (pb self)))) fc fb) eqn:Hbt.
  - exists cand, fc.
    cbn [pb set_pb pop set_pop set_best base best_sol set_best_sol elitism pi].
    repeat split; try assumption; try reflexivity.
    unfold Population.better in Hbt. unfold le_best.
    destruct (min_ (pi (base (pb self)))); lia.
  - exists b, fb.
    cbn [pb set_pb pop set_pop set_best base best_sol set_best_sol elitism pi].
    repeat split; try assumption; try reflexivity.
    apply le_best_refl.
Qed.


(** The same over any number of generations in a row. *)
Lemma elitism_monotone_generations (n : nat) :
  forall (self self' : GeneticAlgorithm) (g g' : Rngs) (ev : list Event)
         (b : Solution.t) (fb : Z),
    elitism self = true ->
    best_sol (base (pb self)) = Some b ->
    Solution.fit b = Some fb ->
    generations n self g = Ok (self', g', ev) ->
    exists (b' : Solution.t) (fb' : Z),
      best_sol (base (pb self')) = Some b' /\
      Solution.fit b' = Some fb' /\
      le_best (min_ (pi (base (pb self)))) fb' fb.
Proof.
  induction n as [|n IH]; intros self self' g g' ev b fb Hel Hbest Hfit H.
  - cbn in H. inversion H; subst. exists b, fb.
    repeat split; try assumption. apply le_best_refl.
  - cbn [generations] in H. rewrite bind_unfold in H.
    destruct (generation_step self g) as [[[s1 g1] ev1]| |] eqn:Hstep;
      try discriminate H.
    destruct (generations n s1 g1) as [[[s2 g2] ev2]| |] eqn:Hrest;
      try discriminate H.
    cbn in H. inversion H; subst.
    destruct (@elitism_step_aux self s1 g g1 ev1 b fb Hel Hstep Hbest Hfit)
      as [b1 [fb1 [Hb1 [Hf1 [Hle [Hel1 Hpi]]]]]].
    destruct (IH _ _ _ _ _ _ _ Hel1 Hb1 Hf1 Hrest) as [b2 [fb2 [Hb2 [Hf2 Hle2]]]].
    exists b2, fb2. repeat split; try assumption.
    rewrite Hpi in Hle2. unfold le_best in *.
    destruct (min_ (pi (base (pb self)))); lia.
Qed.
End ElitismFacts.

(** ** Construction: seeding and the absence of validation *)

Section ConstructionFacts.
Context {RL : RandomLib}.
Import random_search population_based genetic_algorithm.







End ConstructionFacts.

(** ** Statements over all environments, and runs in the concrete one *)

Section ClosedStatements.
Import random_search population_based genetic_algorithm.

Lemma demo_parallel_arrays (minimize : bool) :
  @parallel_arrays Demo.counters (Demo.problem minimize).
Proof.
  intros pr. unfold Population.len. cbn. rewrite !length_map. split; reflexivity.
Qed.

Lemma demo_deterministic_fitness (minimize : bool) :
  @deterministic_fitness Demo.counters (Demo.problem minimize) Demo.first_elt.
Proof. intros pr. reflexivity. Qed.

(** C2.  [RandomSearch._initialize] tests the truth value of [start_at],
    not whether it is [None].  A supplied one-element vector holding 0 is
    treated exactly as no start point: the random branch runs and
    [best_sol] is a sampled solution.  A supplied vector of two or more
    elements makes the call raise.  Only a start point whose truth value
    is true is wrapped, evaluated and installed. *)
Theorem initialize_falsy_start_resamples :
  (forall (RL : RandomLib) (fuel : nat) (self : RandomSearch) (g : Rngs),
      random_search._initialize fuel self (Some (Tensor [0])) g =
      random_search._initialize fuel self None g) /\
  (forall (RL : RandomLib) (fuel : nat) (self : RandomSearch) (g : Rngs)
          (x y : Z) (l : list Z),
      random_search._initialize fuel self (Some (Tensor (x :: y :: l))) g =
      Raise RuntimeError) /\
  (exists self' g' ev,
      random_search._initialize 3 (Demo.rs Demo.counting) (Some (Tensor [0])) Demo.g0 =
      Ok (self', g', ev) /\
      option_map Solution.repr_ (best_sol self') = Some (Tree [2]) /\
      length (filter is_init ev) = 3%nat).
Proof.
  split; [|split].
  - reflexivity.
  - reflexivity.
  - do 3 eexists. split; [reflexivity|]. split; reflexivity.
Qed.

(** C3 as stated fails for [N = 0]: with [pop_size = 0], no [start_at]
    and an initializer returning the 0 representations asked of it, the
    combined list is empty and [pop_repr[0]] raises [IndexError]; no
    population is built. *)
Lemma initialize_empty_population_raises :
  ~ (forall (RL : RandomLib) (self : PopulationBased)
            (start_at : option (list Repr)) (g : Rngs),
        0 <= Z.of_nat (length (seeded start_at)) <= pop_size self ->
        length (drawn self start_at g) =
          Z.to_nat (pop_size self - Z.of_nat (length (seeded start_at))) ->
        exists (self' : PopulationBased) (g' : Rngs) (ev : list Event)
               (p : Population.t),
          _initialize self start_at g = Ok (self', g', ev) /\
          pop self' = Some p /\
          Population.len p = Z.to_nat (pop_size self) /\
          firstn (length (seeded start_at)) (Population.members p) = seeded start_at /\
          skipn (length (seeded start_at)) (Population.members p)
            = drawn self start_at g).
Proof.
  intros H.
  destruct (H Demo.counters (Demo.pbased Demo.cycle4 0 "cpu") None Demo.g0)
    as [self' [g' [ev [p [Hrun _]]]]].
  - cbn. lia.
  - reflexivity.
  - discriminate Hrun.
Qed.


(** C6.  After [_initialize] of a [PopulationBased] or a
    [GeneticAlgorithm] object the population has been evaluated by exactly
    one call of [pi.evaluate_pop], and [best_sol] is the member of minimum
    fitness when [pi.min_] is set and of maximum fitness otherwise.  In
    the scenario with [pop_size = 4], [seed = 0], the initializer
    returning 1, 2, 3, 4 in order and a minimizing problem whose fitness
    is the first element, the fitness of [best_sol] is 1. *)
Theorem initialize_best_of_population :
  (forall (RL : RandomLib) (self self' : PopulationBased)
          (start_at : option (list Repr)) (g g' : Rngs) (ev : list Event),
      _initialize self start_at g = Ok (self', g', ev) ->
      exists (p : Population.t) (b : Solution.t),
        pop self' = Some p /\ best_sol (base self') = Some b /\
        filter is_eval_pop ev = [EEvalPop (Population.repr_ p)] /\
        best_of_population (min_ (pi (base self))) p b) /\
  (forall (RL : RandomLib) (self self' : GeneticAlgorithm)
          (start_at : option (list Repr)) (g g' : Rngs) (ev : list Event),
      _initialize self start_at g = Ok (self', g', ev) ->
      exists (p : Population.t) (b : Solution.t),
        pop (pb self') = Some p /\ best_sol (base (pb self')) = Some b /\
        filter is_eval_pop ev = [EEvalPop (Population.repr_ p)] /\
        best_of_population (min_ (pi (base (pb self)))) p b) /\
  (exists (self' : PopulationBased) (g' : Rngs) (ev : list Event) (b : Solution.t),
      (self <- population_based.__init__ (Demo.problem true) Demo.cycle4
                 Demo.no_mutation 4 0 "cpu" ;;
       _initialize self None) Demo.g0 = Ok (self', g', ev) /\
      best_sol (base self') = Some b /\
      Solution.fit b = Some 1 /\
      length (filter is_eval_pop ev) = 1%nat).
Proof.
  split; [|split].
  - intros RL self self' start_at g g' ev H. exact (pb_initialize_best _ _ _ H).
  - intros RL self self' start_at g g' ev H.
    destruct (ga_initialize_best _ _ _ H) as [p [b [H1 [H2 [_ [H3 H4]]]]]].
    exists p, b. repeat split; assumption.
  - do 4 eexists. split; [reflexivity|]. repeat split.
Qed.

(** C9.  The single draw of [_get_random_sol] passes [sspace] and
    [device] to the initializer.  The batched draw of
    [PopulationBased._initialize] passes [sspace] and [n_sols] and no
    [device]: an object built for the device "cuda:0" calls the
    initializer without it. *)
Theorem initializer_call_arguments :
  (forall (RL : RandomLib) (self : RandomSearch) (g : Rngs),
      exists sol g',
        _get_random_sol self g =
        Ok (sol, g',
            [EInit {| a_sspace := sspace (pi self);
                      a_device := Some (device self);
                      a_n_sols := None |};
             EEvalSol (Solution.repr_ sol)])) /\
  (forall (RL : RandomLib) (self self' : PopulationBased)
          (start_at : option (list Repr)) (g g' : Rngs) (ev : list Event),
      _initialize self start_at g = Ok (self', g', ev) ->
      exists pr,
        ev = [EInit {| a_sspace := sspace (pi (base self));
                       a_device := None;
                       a_n_sols := Some (pop_size self
                                         - Z.of_nat (length (seeded start_at))) |};
              EEvalPop pr]) /\
  (exists (self' : PopulationBased) (g' : Rngs) (pr : PopRepr),
      device (base (Demo.pbased Demo.counting 3 "cuda:0")) = "cuda:0"%string /\
      _initialize (Demo.pbased Demo.counting 3 "cuda:0") None Demo.g0 =
      Ok (self', g',
          [EInit {| a_sspace := sspace (Demo.problem true);
                    a_device := None; a_n_sols := Some 3 |};
           EEvalPop pr])).
Proof.
  split; [|split].
  - intros RL self g. do 2 eexists. apply get_random_sol_eq.
  - intros RL self self' start_at g g' ev H.
    destruct (pb_initialize_inv _ _ _ H) as [pr [b [_ [_ [_ Hev]]]]].
    destruct (initialize_call_args _ _ _ H) as [ev2 Hev2].
    exists pr. rewrite Hev in Hev2. inversion Hev2 as [[Ha He]].
    rewrite Hev. rewrite Ha. reflexivity.
  - do 3 eexists. split; reflexivity.
Qed.
End ClosedStatements.

(** ** The theorems at work on concrete runs *)

Section ConcreteRuns.
Import random_search population_based genetic_algorithm.

Lemma ga_ready_is_initialized :
  exists ev, _initialize (Demo.ga Demo.cycle4 4) None Demo.g0
             = Ok (Demo.ga_ready, Demo.g0, ev).
Proof. eexists. reflexivity. Qed.

Lemma initialize_none_feasible_witness :
  exists self' g' ev,
    random_search._initialize 3 (Demo.rs Demo.counting) None Demo.g0
      = Ok (self', g', ev) /\
    exists sol, best_sol self' = Some sol /\ Solution.valid sol = Some true.
Proof.
  do 3 eexists. split; [reflexivity|].
  eapply (@initialize_none_feasible Demo.counters 3 (Demo.rs Demo.counting) _
            Demo.g0).
  reflexivity.
Defined.

Lemma initialize_retry_loop_witness :
  random_search._initialize 3 (Demo.rs Demo.counting) None Demo.g0 =
    Ok (set_best_sol (Demo.rs Demo.counting)
          {| Solution.repr_ := Tree [2]; Solution.fit := Some 2;
             Solution.valid := Some true |},
        Demo.advance Demo.g0 3,
        draw_events (Demo.rs Demo.counting) 3 Demo.g0) /\
  random_search._initialize 2 (Demo.rs Demo.counting) None Demo.g0 = OutOfFuel /\
  (forall fuel,
      random_search._initialize fuel (Demo.rs Demo.hopeless) None Demo.g0 = OutOfFuel).
Proof.
  destruct (@initialize_retry_loop Demo.counters (Demo.rs Demo.counting) Demo.g0)
    as [Hfirst _].
  destruct (Hfirst 2%nat) as [Hok [Hout _]].
  - intros i Hi. destruct i as [|[|i]]; [reflexivity|reflexivity|lia].
  - reflexivity.
  - split; [exact (Hok 3%nat (le_n 3)) | split; [exact (Hout 2%nat (le_n 2))|]].
    destruct (@initialize_retry_loop Demo.counters (Demo.rs Demo.hopeless) Demo.g0)
      as [_ Hnever].
    apply Hnever. intros i. reflexivity.
Defined.

Lemma initialize_builds_population_witness :
  exists (self' : PopulationBased) (g' : Rngs) (ev : list Event) (p : Population.t),
    _initialize (Demo.pbased Demo.counting 5 "cpu") (Some [Tree [7]; Tree [8]]) Demo.g0
      = Ok (self', g', ev) /\
    pop self' = Some p /\
    Population.len p = 5%nat /\
    firstn 2 (Population.members p) = [Tree [7]; Tree [8]] /\
    skipn 2 (Population.members p) = [Tree [0]; Tree [1]; Tree [2]].
Proof.
  destruct (@initialize_builds_population Demo.counters
              (Demo.pbased Demo.counting 5 "cpu") (Some [Tree [7]; Tree [8]]) Demo.g0)
    as (self' & g' & ev & p & Hrun & Hpop & Hlen & Hfirst & Hrest & _).
  - cbn. lia.
  - cbn. lia.
  - reflexivity.
  - reflexivity.
  - apply demo_parallel_arrays.
  - exists self', g', ev, p. repeat split; assumption.
Defined.


Lemma initialize_best_of_population_witness :
  exists (self' : PopulationBased) (g' : Rngs) (ev : list Event)
         (p : Population.t) (b : Solution.t),
    _initialize (Demo.pbased Demo.counting 3 "cpu") None Demo.g0 = Ok (self', g', ev) /\
    pop self' = Some p /\ best_sol (base self') = Some b /\
    filter is_eval_pop ev = [EEvalPop (Population.repr_ p)] /\
    best_of_population true p b.
Proof.
  destruct initialize_best_of_population as [Hpb _].
  do 3 eexists.
  eassert (Hrun : _initialize (Demo.pbased Demo.counting 3 "cpu") None Demo.g0
                 = Ok (_, _, _)) by reflexivity.
  destruct (Hpb Demo.counters _ _ _ _ _ _ Hrun) as (p & b & H1 & H2 & H3 & H4).
  exists p, b. repeat split; assumption.
Defined.

Lemma initializer_call_arguments_witness :
  exists (self' : PopulationBased) (g' : Rngs) (pr : PopRepr),
    _initialize (Demo.pbased Demo.counting 3 "cuda:0") None Demo.g0
      = Ok (self', g',
            [EInit {| a_sspace := sspace (Demo.problem true);
                      a_device := None; a_n_sols := Some 3 |};
             EEvalPop pr]).
Proof.
  destruct initializer_call_arguments as (_ & Hbatch & _).
  eassert (Hrun : _initialize (Demo.pbased Demo.counting 3 "cuda:0") None Demo.g0
                 = Ok (_, _, _)) by reflexivity.
  destruct (Hbatch Demo.counters _ _ _ _ _ _ Hrun) as [pr Hev].
  do 2 eexists. exists pr. refine (eq_trans Hrun _).
  refine (f_equal (fun e => Ok (_, _, e)) _). exact Hev.
Defined.

Lemma initialize_frame_witness :
  exists (self' : PopulationBased) (g' : Rngs) (ev : list Event),
    _initialize (Demo.pbased Demo.counting 5 "cpu") (Some [Tree [7]; Tree [8]]) Demo.g0
      = Ok (self', g', ev) /\
    pop_size self' = 5 /\ device (base self') = "cpu"%string /\
    seed (base self') = 0.
Proof.
  destruct (@initialize_frame Demo.counters) as [_ [Hpb _]].
  eassert (Hrun : _initialize (Demo.pbased Demo.counting 5 "cpu")
                   (Some [Tree [7]; Tree [8]]) Demo.g0
                 = Ok (_, _, _)) by reflexivity.
  destruct (Hpb _ _ _ _ _ _ Hrun) as (_ & _ & _ & Hps & Hseed & Hdev).
  do 3 eexists. split; [exact Hrun|]. repeat split; assumption.
Defined.
End ConcreteRuns.

(** ** RandomSearch: what a returned initialization has done *)

Section RandomSearchReturns.
Context {RL : RandomLib}.
Import random_search.

Lemma draw_evaluated (self : RandomSearch) (g : Rngs) :
  evaluated_by (pi self) (fst (draw self g)).
Proof.
  unfold evaluated_by, draw.
  destruct (draw_one (initializer self) (single_args self) g) as [r g'].
  destruct (evaluate_sol_fn (pi self) r) as [f v] eqn:He. cbn. rewrite He.
  split; reflexivity.
Qed.

Lemma draw_events_eval_count (self : RandomSearch) (n : nat) :
  forall g, length (filter is_eval_sol (draw_events self n g)) = n.
Proof.
  induction n as [|n IH]; intros g; [reflexivity|].
  cbn. rewrite IH. reflexivity.
Qed.

(** A loop that returns either found its current solution feasible at
    the first test, or discarded it and stopped at the first feasible draw
    that followed. *)
Lemma retry_ok_inv (fuel : nat) :
  forall (self self' : RandomSearch) (s : Solution.t) (g g' : Rngs)
         (ev : list Event),
    retry fuel (set_best_sol self s) g = Ok (self', g', ev) ->
    (Solution.is_valid s = true /\ (0 < fuel)%nat /\
     self' = set_best_sol self s /\ g' = g /\ ev = []) \/
    (Solution.is_valid s = false /\
     exists n : nat,
       (S n < fuel)%nat /\
       (forall i, (i < n)%nat -> Solution.is_valid (nth_sol self i g) = false) /\
       Solution.is_valid (nth_sol self n g) = true /\
       self' = set_best_sol self (nth_sol self n g) /\
       g' = gens_after self (S n) g /\
       ev = draw_events self (S n) g).
Proof.
  induction fuel as [|fuel IH]; intros self self' s g g' ev H; [discriminate H|].
  destruct (Solution.is_valid s) eqn:Hs.
  - rewrite (retry_valid fuel self s g Hs) in H. inversion H; subst.
    left. repeat split. lia.
  - rewrite (retry_invalid fuel self s g Hs) in H.
    destruct (retry fuel (set_best_sol self (fst (draw self g))) (snd (draw self g)))
      as [[[a g2] ev2]| |] eqn:Hr; try discriminate H.
    inversion H; subst. right. split; [reflexivity|].
    destruct (IH _ _ _ _ _ _ Hr)
      as [[Hv [Hf [Ha [Hg Hev]]]] | [Hv [m [Hm [Hbefore [Hat [Ha [Hg Hev]]]]]]]].
    + exists 0%nat. subst.
      split; [lia|]. split; [intros i Hi; lia|]. repeat split. exact Hv.
    + exists (S m). subst.
      split; [lia|]. split; [|repeat split; exact Hat].
      intros i Hi. destruct i as [|j].
      * exact Hv.
      * apply (Hbefore j). lia.
Qed.

Lemma initialize_none_inv (fuel : nat) (self self' : RandomSearch)
    (g g' : Rngs) (ev : list Event) :
  sample_until_valid fuel self g = Ok (self', g', ev) ->
  exists n : nat,
    (n < fuel)%nat /\
    (forall i, (i < n)%nat -> Solution.is_valid (nth_sol self i g) = false) /\
    Solution.is_valid (nth_sol self n g) = true /\
    self' = set_best_sol self (nth_sol self n g) /\
    g' = gens_after self (S n) g /\
    ev = draw_events self (S n) g.
Proof.
  rewrite sample_until_valid_eq. intros H.
  destruct (retry fuel (set_best_sol self (fst (draw self g))) (snd (draw self g)))
    as [[[a g2] ev2]| |] eqn:Hr; try discriminate H.
  inversion H; subst.
  destruct (retry_ok_inv _ _ _ _ Hr)
    as [[Hv [Hf [Ha [Hg Hev]]]] | [Hv [m [Hm [Hbefore [Hat [Ha [Hg Hev]]]]]]]].
  - exists 0%nat. subst.
    split; [lia|]. split; [intros i Hi; lia|]. repeat split. exact Hv.
  - exists (S m). subst.
    split; [lia|]. split; [|repeat split; exact Hat].
    intros i Hi. destruct i as [|j].
    + exact Hv.
    + apply (Hbefore j). lia.
Qed.

(** X1.  A start point whose truth value is true is installed as
    [best_sol] after one evaluation, with no call of the initializer, no
    draw from the generators and no turn of the loop (any bound, even 0,
    suffices); its feasibility is not tested: [best_sol.valid] is whatever
    the problem says of it. *)
Theorem start_point_installed_unchecked
    (fuel : nat) (self : RandomSearch) (r : Repr) (g : Rngs) :
  truth r = Some true ->
  exists sol : Solution.t,
    _initialize fuel self (Some r) g = Ok (set_best_sol self sol, g, [EEvalSol r]) /\
    Solution.repr_ sol = r /\
    Solution.fit sol = Some (fst (evaluate_sol_fn (pi self) r)) /\
    Solution.valid sol = Some (snd (evaluate_sol_fn (pi self) r)).
Proof.
  intros Ht. eexists. split.
  - apply initialize_truthy_start. exact Ht.
  - repeat split.
Qed.

(** X2.  Whenever [_initialize(start_at=None)] returns, the solution it
    installed is the first feasible one of the sequence of draws: every
    draw before it was infeasible and was discarded, nothing was drawn
    after it, and each draw was evaluated exactly once, so the calls of the
    initializer and of [pi.evaluate_sol] are equally many, at least one.  *)
Theorem initialize_returns_first_feasible
    (fuel : nat) (self self' : RandomSearch) (g g' : Rngs) (ev : list Event) :
  _initialize fuel self None g = Ok (self', g', ev) ->
  exists n : nat,
    (n < fuel)%nat /\
    (forall i, (i < n)%nat -> Solution.is_valid (nth_sol self i g) = false) /\
    Solution.is_valid (nth_sol self n g) = true /\
    best_sol self' = Some (nth_sol self n g) /\
    g' = gens_after self (S n) g /\
    length (filter is_init ev) = S n /\
    length (filter is_eval_sol ev) = S n.
Proof.
  cbn [_initialize]. intros H.
  destruct (initialize_none_inv _ _ _ H) as [n [Hn [Hbefore [Hat [Hs [Hg Hev]]]]]].
  exists n. subst. repeat split; try assumption.
  - apply draw_events_init_count.
  - apply draw_events_eval_count.
Qed.

(** X3.  Whichever branch ran, a returned [_initialize] leaves a
    [best_sol] that has been evaluated: its fitness and validity are those
    the problem gives to its representation.  No unevaluated Solution is
    ever left installed. *)
Theorem initialize_leaves_evaluated
    (fuel : nat) (self self' : RandomSearch) (start_at : option Repr)
    (g g' : Rngs) (ev : list Event) :
  _initialize fuel self start_at g = Ok (self', g', ev) ->
  exists sol : Solution.t,
    best_sol self' = Some sol /\ evaluated_by (pi self') sol.
Proof.
  assert (Hs : sample_until_valid fuel self g = Ok (self', g', ev) ->
               exists sol, best_sol self' = Some sol /\ evaluated_by (pi self') sol).
  { intros H.
    destruct (initialize_none_inv _ _ _ H) as [n [_ [_ [_ [Hself _]]]]].
    subst self'. eexists. split; [reflexivity|].
    exact (draw_evaluated self (gens_after self n g)). }
  destruct start_at as [r|]; cbn [_initialize]; [|exact Hs].
  destruct (truth r) as [[|]|] eqn:Ht; [| exact Hs | discriminate].
  pose proof (initialize_truthy_start fuel self r g Ht) as E.
  cbn [_initialize] in E. rewrite Ht in E. rewrite E.
  intros H; inversion H; subst. eexists. split; [reflexivity|].
  split; reflexivity.
Qed.

(** X4.  [_initialize] never reads the [best_sol] it finds: run on an
    object that already holds a best solution, feasible or not, it does
    exactly what it does on one that holds another or none.  In
    particular the random branch always draws at least once. *)
Theorem initialize_forgets_best_sol
    (fuel : nat) (self : RandomSearch) (b0 : Solution.t)
    (start_at : option Repr) (g : Rngs) :
  _initialize fuel (set_best_sol self b0) start_at g = _initialize fuel self start_at g /\
  (forall self' g' ev,
      _initialize fuel (set_best_sol self b0) None g = Ok (self', g', ev) ->
      (1 <= length (filter is_init ev))%nat).
Proof.
  split.
  - destruct start_at as [r|]; cbn [_initialize]; [|reflexivity].
    destruct (truth r) as [[|]|]; reflexivity.
  - intros self' g' ev H. cbn [_initialize] in H.
    destruct (initialize_none_inv _ _ _ H) as [n [_ [_ [_ [_ [_ Hev]]]]]].
    subst ev. rewrite draw_events_init_count. lia.
Qed.
End RandomSearchReturns.

(** ** Populations: errors, storage and the override *)

Section PopulationReturns.
Context {RL : RandomLib}.
Import random_search population_based genetic_algorithm.

Lemma stack_rows_fail (n : nat) (l : list Repr) :
  forallb (fun r => match r with
                    | Tensor d' => Nat.eqb (length d') n
                    | Tree _ => false
                    end) l = false ->
  exists e, stack_rows n l = inl e /\ (e = TypeError \/ e = RuntimeError).
Proof.
  induction l as [|r t IH]; cbn; intros H; [discriminate H|].
  destruct r as [d|nodes].
  - destruct (Nat.eqb (length d) n); cbn in H.
    + destruct (IH H) as [e [He Hk]]. rewrite He. exists e. split; [reflexivity|exact Hk].
    + exists RuntimeError. split; [reflexivity|right; reflexivity].
  - exists TypeError. split; [reflexivity|left; reflexivity].
Qed.

(** A returned [_initialize] went through one of the two branches of the
    stacking test. *)
Lemma initialize_ok_kind {T : Type} {C : PopulationClass T} (self self' : T)
    (start_at : option (list Repr)) (g g' : Rngs) (ev : list Event) :
  _initialize self start_at g = Ok (self', g', ev) ->
  exists (r0 : Repr) (t : list Repr) (ev2 : list Event),
    seeded start_at ++ drawn (as_pb self) start_at g = r0 :: t /\
    ((is_tensor r0 = true /\
      exists rows, map Tensor rows = r0 :: t /\
        set_pop_method self (Stacked rows)
          (gens_after_batch (as_pb self) start_at g) = Ok (self', g', ev2)) \/
     (is_tensor r0 = false /\
      set_pop_method self (PyList (r0 :: t))
        (gens_after_batch (as_pb self) start_at g) = Ok (self', g', ev2))).
Proof.
  rewrite initialize_unfold. cbv zeta. fold (gens_after_batch (as_pb self) start_at g).
  destruct (seeded start_at ++ drawn (as_pb self) start_at g) as [|r0 t] eqn:Hl;
    [discriminate|].
  destruct (is_tensor r0) eqn:Ht.
  - destruct (torch_stack (r0 :: t)) as [e|rows] eqn:Hst; [discriminate|].
    destruct (set_pop_method self (Stacked rows)
                (gens_after_batch (as_pb self) start_at g))
      as [[[a g2] ev2]| |] eqn:Hsp; try discriminate.
    cbn. intros H. inversion H; subst. exists r0, t, ev2.
    split; [reflexivity|]. left. split; [exact Ht|]. exists rows.
    split; [exact (@torch_stack_members _ _ Hst) | exact Hsp].
  - destruct (set_pop_method self (PyList (r0 :: t))
                (gens_after_batch (as_pb self) start_at g))
      as [[[a g2] ev2]| |] eqn:Hsp; try discriminate.
    cbn. intros H. inversion H; subst. exists r0, t, ev2.
    split; [reflexivity|]. right. split; [exact Ht | exact Hsp].
Qed.

Lemma get_best_pop_any_class (pi : Problem) (pr : PopRepr) (m : bool) :
  Population.get_best_pop (evaluated true pi pr) m =
  Population.get_best_pop (evaluated false pi pr) m.
Proof. reflexivity. Qed.

(** The error of [torch.stack] stops [_initialize]. *)
Lemma initialize_unstackable_raises_aux
    {T : Type} {C : PopulationClass T} (self : T)
    (start_at : option (list Repr)) (g : Rngs) (r0 : Repr) (t : list Repr) :
  seeded start_at ++ drawn (as_pb self) start_at g = r0 :: t ->
  is_tensor r0 = true ->
  stackable (r0 :: t) = false ->
  exists e, _initialize self start_at g = Raise e.
Proof.
  intros Hl Ht Hst. rewrite initialize_unfold. cbv zeta. rewrite Hl, Ht.
  destruct r0 as [d|nodes]; [|discriminate Ht].
  cbn [stackable] in Hst. cbn [torch_stack].
  destruct (stack_rows_fail (length d) (Tensor d :: t) Hst) as [e [He _]].
  rewrite He. exists e. reflexivity.
Qed.



(** X7.  Whenever [_initialize] returns, the population holds the
    representations of [start_at] followed by those of the batch, all of
    them and in that order: its length is the number supplied plus the
    number returned, whatever [pop_size] is, and [pop_size] keeps its
    value.  This for [PopulationBased] and for [GeneticAlgorithm]. *)
Theorem population_is_seed_then_batch :
  (forall (self self' : PopulationBased) (start_at : option (list Repr))
          (g g' : Rngs) (ev : list Event),
      _initialize self start_at g = Ok (self', g', ev) ->
      exists p : Population.t,
        pop self' = Some p /\
        Population.members p = seeded start_at ++ drawn self start_at g /\
        Population.len p
          = (length (seeded start_at) + length (drawn self start_at g))%nat /\
        pop_size self' = pop_size self) /\
  (forall (self self' : GeneticAlgorithm) (start_at : option (list Repr))
          (g g' : Rngs) (ev : list Event),
      _initialize self start_at g = Ok (self', g', ev) ->
      exists p : Population.t,
        pop (pb self') = Some p /\
        Population.members p = seeded start_at ++ drawn (pb self) start_at g /\
        Population.len p
          = (length (seeded start_at) + length (drawn (pb self) start_at g))%nat /\
        pop_size (pb self') = pop_size (pb self)).
Proof.
  split.
  - intros self self' start_at g g' ev H.
    destruct (pb_initialize_inv _ _ _ H) as [pr [b [Hm [_ [Hs _]]]]].
    subst self'. exists (evaluated false (pi (base self)) pr).
    split; [reflexivity|]. split; [exact Hm|]. split; [|reflexivity].
    unfold Population.len.
    change (Population.members (evaluated false (pi (base self)) pr))
      with (Population.members (Population.new pr)).
    rewrite Hm. apply length_app.
  - intros self self' start_at g g' ev H.
    destruct (ga_initialize_inv _ _ _ H) as [pr [b [Hm [_ [Hs _]]]]].
    subst self'. exists (evaluated true (pi (base (pb self))) pr).
    split; [reflexivity|]. split; [exact Hm|]. split; [|reflexivity].
    unfold Population.len.
    change (Population.members (evaluated true (pi (base (pb self))) pr))
      with (Population.members (Population.new pr)).
    rewrite Hm. apply length_app.
Qed.

(** X8.  The first representation alone decides how the population is
    stored: if it is a tensor the population is the stacked tensor, whose
    rows are the combined list; if it is not, the population is the plain
    list, also when tensors follow. *)
Theorem population_storage_follows_first
    (self self' : PopulationBased) (start_at : option (list Repr))
    (g g' : Rngs) (ev : list Event) :
  _initialize self start_at g = Ok (self', g', ev) ->
  exists (p : Population.t) (r0 : Repr) (t : list Repr),
    pop self' = Some p /\
    seeded start_at ++ drawn self start_at g = r0 :: t /\
    (is_tensor r0 = true ->
     exists rows, Population.repr_ p = Stacked rows /\ map Tensor rows = r0 :: t) /\
    (is_tensor r0 = false -> Population.repr_ p = PyList (r0 :: t)).
Proof.
  intros H.
  destruct (initialize_ok_kind _ _ _ H) as [r0 [t [ev2 [Hl Hcase]]]].
  cbn [as_pb PopulationBased_class set_pop_method] in *.
  destruct Hcase as [[Ht [rows [Hrows Hsp]]] | [Ht Hsp]];
    rewrite set_pop_eq in Hsp;
    match type of Hsp with
    | match ?x with _ => _ end = _ => destruct x as [e|b]; [discriminate|]
    end;
    inversion Hsp; subst.
  - eexists _, r0, t. split; [reflexivity|]. split; [exact Hl|]. split.
    + intros _. exists rows. split; [reflexivity | exact Hrows].
    + intros Hf. rewrite Ht in Hf. discriminate.
  - eexists _, r0, t. split; [reflexivity|]. split; [exact Hl|]. split.
    + intros Hf. rewrite Ht in Hf. discriminate.
    + intros _. reflexivity.
Qed.

(** X9.  The [_initialize] that [GeneticAlgorithm] inherits runs the
    override of [_set_pop]: on a [GeneticAlgorithm] object it does what it
    does on the [PopulationBased] attributes of that object, with the same
    calls, generators, best solution and exceptions, except that the
    population is held in a [PopulationTree]. *)
Theorem genetic_initialize_follows_parent
    (self : GeneticAlgorithm) (start_at : option (list Repr)) (g : Rngs) :
  _initialize self start_at g =
  match _initialize (pb self) start_at g with
  | Ok (s1, g1, ev1) =>
      match pop s1 with
      | Some p1 => Ok (set_pb self (set_pop s1 (as_tree p1)), g1, ev1)
      | None => Raise AttributeError
      end
  | Raise e => Raise e
  | OutOfFuel => OutOfFuel
  end.
Proof.
  rewrite !initialize_unfold. cbv zeta.
  cbn [as_pb PopulationBased_class GeneticAlgorithm_class set_pop_method].
  destruct (seeded start_at ++ drawn (pb self) start_at g) as [|r0 t]; [reflexivity|].
  assert (Hsp : forall pr g1,
             prefix_events
               [EInit (batch_args (pb self) (remaining (pb self) start_at))]
               (genetic_algorithm._set_pop self pr g1) =
             match prefix_events
                     [EInit (batch_args (pb self) (remaining (pb self) start_at))]
                     (population_based._set_pop (pb self) pr g1) with
             | Ok (s1, g2, ev1) =>
                 match pop s1 with
                 | Some p1 => Ok (set_pb self (set_pop s1 (as_tree p1)), g2, ev1)
                 | None => Raise AttributeError
                 end
             | Raise e => Raise e
             | OutOfFuel => OutOfFuel
             end).
  { intros pr g1. rewrite ga_set_pop_eq, set_pop_eq, get_best_pop_any_class.
    destruct (Population.get_best_pop (evaluated false (pi (base (pb self))) pr)
                (min_ (pi (base (pb self))))) as [e|b]; reflexivity. }
  destruct (is_tensor r0); [|apply Hsp].
  destruct (torch_stack (r0 :: t)) as [e|rows]; [reflexivity|apply Hsp].
Qed.


(** X11.  [_initialize] and [_set_pop] never read the population or the
    best solution they find: on an object that already holds both they do
    what they do on one that holds neither, replacing both wholesale.  No
    best solution of an earlier population survives. *)
Theorem initialize_replaces_population
    (self : PopulationBased) (p0 : Population.t) (b0 : Solution.t) (g : Rngs) :
  (forall start_at,
      _initialize (set_best (set_pop self p0) b0) start_at g
      = _initialize self start_at g) /\
  (forall pr,
      population_based._set_pop (set_best (set_pop self p0) b0) pr g
      = population_based._set_pop self pr g) /\
  (forall pr self' g' ev,
      population_based._set_pop (set_best (set_pop self p0) b0) pr g
        = Ok (self', g', ev) ->
      exists p b,
        pop self' = Some p /\ Population.repr_ p = pr /\
        best_sol (base self') = Some b /\
        In (Solution.repr_ b) (Population.members p)).
Proof.
  assert (Hsp : forall pr g1,
             population_based._set_pop (set_best (set_pop self p0) b0) pr g1
             = population_based._set_pop self pr g1).
  { intros pr g1. rewrite !set_pop_eq. reflexivity. }
  split; [|split].
  - intros start_at. rewrite !initialize_unfold. cbv zeta.
    cbn [as_pb PopulationBased_class set_pop_method]. rewrite !Hsp. reflexivity.
  - intros pr. apply Hsp.
  - intros pr self' g' ev H. rewrite Hsp, set_pop_eq in H.
    destruct (Population.get_best_pop (evaluated false (pi (base self)) pr)
                (min_ (pi (base self)))) as [e|b] eqn:Hb; [discriminate|].
    inversion H; subst.
    exists (evaluated false (pi (base self)) pr), b.
    repeat split.
    destruct (get_best_pop_spec _ _ Hb) as [j [fs [f [_ [Hj _]]]]].
    eapply nth_error_In. exact Hj.
Qed.

(** X12.  An empty [start_at] list is no seed at all: it is not [None],
    so the seeding branch runs, but it takes nothing from the count and
    adds nothing to the list, and the call does what it does without
    [start_at]. *)
Theorem initialize_empty_start_is_none
    {T : Type} {C : PopulationClass T} (self : T) (g : Rngs) :
  _initialize self (Some []) g = _initialize self None g.
Proof.
  unfold _initialize. cbn [seed_population length app Z.of_nat].
  rewrite Z.sub_0_r. reflexivity.
Qed.
End PopulationReturns.

(** ** When the initialization of a population returns *)

Section PopulationTotality.
Context {RL : RandomLib}.
Import random_search population_based genetic_algorithm.

Lemma pb_set_pop_total (self : PopulationBased) (pr : PopRepr) (g : Rngs) :
  parallel_arrays (pi (base self)) ->
  Population.members (Population.new pr) <> [] ->
  exists b,
    population_based._set_pop self pr g =
    Ok (set_best (set_pop self (evaluated false (pi (base self)) pr)) b,
        g, [EEvalPop pr]).
Proof.
  intros Hpar Hne. rewrite set_pop_eq. destruct (Hpar pr) as [Hf Hv].
  destruct (@get_best_pop_total (evaluated false (pi (base self)) pr)
              (min_ (pi (base self))) _ _ eq_refl eq_refl Hf Hv) as [b Hb].
  - change (Population.len (evaluated false (pi (base self)) pr))
      with (length (Population.members (Population.new pr))).
    destruct (Population.members (Population.new pr)); [congruence|discriminate].
  - rewrite Hb. exists b. reflexivity.
Qed.

(** X13.  With an evaluator that fills one fitness and one flag per
    member, [PopulationBased._initialize] returns exactly when the combined
    list is not empty and [torch.stack] accepts it; on every other input it
    raises.  Neither [pop_size] nor the length of [start_at] enters. *)
Theorem initialize_returns_iff
    (self : PopulationBased) (start_at : option (list Repr)) (g : Rngs) :
  parallel_arrays (pi (base self)) ->
  ((exists self' g' ev, _initialize self start_at g = Ok (self', g', ev)) <->
   (seeded start_at ++ drawn self start_at g <> [] /\
    stackable (seeded start_at ++ drawn self start_at g) = true)) /\
  ((forall self' g' ev, _initialize self start_at g <> Ok (self', g', ev)) ->
   exists e, _initialize self start_at g = Raise e).
Proof.
  intros Hpar. split; [split|].
  - intros [self' [g' [ev H]]].
    destruct (initialize_ok_kind _ _ _ H) as [r0 [t [ev2 [Hl Hcase]]]].
    cbn [as_pb PopulationBased_class] in Hl. rewrite Hl.
    split; [discriminate|].
    destruct (stackable (r0 :: t)) eqn:Hst; [reflexivity|].
    destruct Hcase as [[Ht _] | [Ht _]].
    + destruct (@initialize_unstackable_raises_aux RL _ PopulationBased_class
                  self start_at g r0 t Hl Ht Hst) as [e He].
      rewrite He in H. discriminate H.
    + destruct r0; [discriminate Ht | discriminate Hst].
  - intros [Hne Hst]. rewrite initialize_unfold. cbv zeta.
    cbn [as_pb PopulationBased_class set_pop_method].
    destruct (seeded start_at ++ drawn self start_at g) as [|r0 t] eqn:Hl;
      [congruence|].
    destruct (is_tensor r0) eqn:Ht.
    + destruct (@torch_stack_total r0 t Ht Hst) as [rows Hrows]. rewrite Hrows.
      destruct (@pb_set_pop_total self (Stacked rows)
                  (snd (draw_many (initializer (base self))
                          (batch_args self (remaining self start_at)) g)) Hpar)
        as [b Hb].
      * change (Population.members (Population.new (Stacked rows)))
          with (map Tensor rows).
        rewrite (@torch_stack_members _ _ Hrows). discriminate.
      * rewrite Hb. do 3 eexists. reflexivity.
    + destruct (@pb_set_pop_total self (PyList (r0 :: t))
                  (snd (draw_many (initializer (base self))
                          (batch_args self (remaining self start_at)) g)) Hpar)
        as [b Hb]; [discriminate|].
      rewrite Hb. do 3 eexists. reflexivity.
  - intros Hno.
    destruct (_initialize self start_at g) as [[[a g2] ev2]|e|] eqn:H.
    + exfalso. exact (Hno a g2 ev2 eq_refl).
    + exists e. reflexivity.
    + exfalso. revert H. rewrite initialize_unfold. cbv zeta.
      cbn [as_pb PopulationBased_class set_pop_method].
      destruct (seeded start_at ++ drawn self start_at g) as [|r0 t];
        [discriminate|].
      destruct (is_tensor r0).
      * destruct (torch_stack (r0 :: t)) as [e|rows]; [discriminate|].
        rewrite set_pop_eq.
        destruct (Population.get_best_pop _ _); discriminate.
      * rewrite set_pop_eq.
        destruct (Population.get_best_pop _ _); discriminate.
Qed.
End PopulationTotality.

(** ** Further concrete runs *)

Section MoreConcreteRuns.
Import random_search population_based genetic_algorithm.

Lemma start_point_installed_unchecked_witness :
  exists sol : Solution.t,
    random_search._initialize 0 (Demo.rs Demo.counting) (Some (Tensor [1])) Demo.g0
      = Ok (set_best_sol (Demo.rs Demo.counting) sol, Demo.g0, [EEvalSol (Tensor [1])]) /\
    Solution.valid sol = Some false.
Proof.
  destruct (@start_point_installed_unchecked Demo.counters 0 (Demo.rs Demo.counting)
              (Tensor [1]) Demo.g0 eq_refl) as [sol [Hrun [_ [_ Hv]]]].
  exists sol. split; [exact Hrun | exact Hv].
Defined.

Lemma initialize_returns_first_feasible_witness :
  exists (self' : RandomSearch) (g' : Rngs) (ev : list Event) (n : nat),
    random_search._initialize 3 (Demo.rs Demo.counting) None Demo.g0
      = Ok (self', g', ev) /\
    (n < 3)%nat /\
    best_sol self' = Some (nth_sol (Demo.rs Demo.counting) n Demo.g0) /\
    length (filter is_init ev) = S n.
Proof.
  eassert (Hrun : random_search._initialize 3 (Demo.rs Demo.counting) None Demo.g0
                  = Ok (_, _, _)) by reflexivity.
  destruct (@initialize_returns_first_feasible Demo.counters _ _ _ _ _ _ Hrun)
    as [n [Hn [_ [_ [Hb [_ [Hi _]]]]]]].
  do 3 eexists. exists n. split; [exact Hrun|]. repeat split; assumption.
Defined.

Lemma initialize_leaves_evaluated_witness :
  exists (self' : RandomSearch) (g' : Rngs) (ev : list Event) (sol : Solution.t),
    random_search._initialize 3 (Demo.rs Demo.counting) (Some (Tensor [0])) Demo.g0
      = Ok (self', g', ev) /\
    best_sol self' = Some sol /\ evaluated_by (pi self') sol.
Proof.
  eassert (Hrun : random_search._initialize 3 (Demo.rs Demo.counting)
                    (Some (Tensor [0])) Demo.g0 = Ok (_, _, _)) by reflexivity.
  destruct (@initialize_leaves_evaluated Demo.counters _ _ _ _ _ _ _ Hrun)
    as [sol [Hb He]].
  do 3 eexists. exists sol. split; [exact Hrun|]. split; assumption.
Defined.

Lemma initialize_forgets_best_sol_witness :
  exists (self' : RandomSearch) (g' : Rngs) (ev : list Event),
    random_search._initialize 3
      (set_best_sol (Demo.rs Demo.counting)
         {| Solution.repr_ := Tree [5]; Solution.fit := Some 5;
            Solution.valid := Some true |})
      None Demo.g0 = Ok (self', g', ev) /\
    (1 <= length (filter is_init ev))%nat.
Proof.
  destruct (@initialize_forgets_best_sol Demo.counters 3 (Demo.rs Demo.counting)
              {| Solution.repr_ := Tree [5]; Solution.fit := Some 5;
                 Solution.valid := Some true |} None Demo.g0) as [_ Hdraws].
  eassert (Hrun : random_search._initialize 3
                    (set_best_sol (Demo.rs Demo.counting)
                       {| Solution.repr_ := Tree [5]; Solution.fit := Some 5;
                          Solution.valid := Some true |})
                    None Demo.g0 = Ok (_, _, _)) by reflexivity.
  do 3 eexists. split; [exact Hrun | exact (Hdraws _ _ _ Hrun)].
Defined.



Lemma population_is_seed_then_batch_witness :
  exists (self' : PopulationBased) (g' : Rngs) (ev : list Event) (p : Population.t),
    _initialize (Demo.pbased Demo.counting 1 "cpu")
      (Some [Tree [5]; Tree [7]; Tree [6]]) Demo.g0 = Ok (self', g', ev) /\
    pop self' = Some p /\
    Population.members p = [Tree [5]; Tree [7]; Tree [6]] /\
    Population.len p = 3%nat /\
    pop_size self' = 1.
Proof.
  destruct (@population_is_seed_then_batch Demo.counters) as [Hpb _].
  eassert (Hrun : _initialize (Demo.pbased Demo.counting 1 "cpu")
                    (Some [Tree [5]; Tree [7]; Tree [6]]) Demo.g0
                  = Ok (_, _, _)) by reflexivity.
  destruct (Hpb _ _ _ _ _ _ Hrun) as [p [Hp [Hm [Hlen Hps]]]].
  do 3 eexists. exists p. split; [exact Hrun|]. repeat split; assumption.
Defined.

Lemma population_storage_follows_first_witness :
  exists (self' : PopulationBased) (g' : Rngs) (ev : list Event)
         (p : Population.t) (rows : list (list Z)),
    _initialize (Demo.pbased Demo.cycle4 4 "cpu") None Demo.g0 = Ok (self', g', ev) /\
    pop self' = Some p /\
    Population.repr_ p = Stacked rows /\
    map Tensor rows = [Tensor [1]; Tensor [2]; Tensor [3]; Tensor [4]].
Proof.
  eassert (Hrun : _initialize (Demo.pbased Demo.cycle4 4 "cpu") None Demo.g0
                  = Ok (_, _, _)) by reflexivity.
  destruct (@population_storage_follows_first Demo.counters _ _ _ _ _ _ Hrun)
    as [p [r0 [t [Hp [Hl [Hten _]]]]]].
  injection Hl as Hr0 Ht. subst r0 t.
  destruct (Hten eq_refl) as [rows [Hrepr Hrows]].
  do 3 eexists. exists p, rows. split; [exact Hrun|]. repeat split; assumption.
Defined.


Lemma initialize_replaces_population_witness :
  exists (self' : PopulationBased) (g' : Rngs) (ev : list Event)
         (p : Population.t) (b : Solution.t),
    population_based._set_pop
      (set_best (set_pop (Demo.pbased Demo.counting 3 "cpu")
                   (Population.new (PyList [Tree [0]])))
         {| Solution.repr_ := Tree [0]; Solution.fit := Some 0;
            Solution.valid := Some false |})
      (PyList [Tree [4]; Tree [3]]) Demo.g0 = Ok (self', g', ev) /\
    pop self' = Some p /\ best_sol (base self') = Some b /\
    In (Solution.repr_ b) (Population.members p) /\
    Population.repr_ p = PyList [Tree [4]; Tree [3]].
Proof.
  destruct (@initialize_replaces_population Demo.counters
              (Demo.pbased Demo.counting 3 "cpu")
              (Population.new (PyList [Tree [0]]))
              {| Solution.repr_ := Tree [0]; Solution.fit := Some 0;
                 Solution.valid := Some false |} Demo.g0) as [_ [_ Hnew]].
  eassert (Hrun : population_based._set_pop
                    (set_best (set_pop (Demo.pbased Demo.counting 3 "cpu")
                                 (Population.new (PyList [Tree [0]])))
                       {| Solution.repr_ := Tree [0]; Solution.fit := Some 0;
                          Solution.valid := Some false |})
                    (PyList [Tree [4]; Tree [3]]) Demo.g0 = Ok (_, _, _))
    by reflexivity.
  destruct (Hnew _ _ _ _ Hrun) as [p [b [Hp [Hr [Hb Hin]]]]].
  do 3 eexists. exists p, b. split; [exact Hrun|]. repeat split; assumption.
Defined.

Lemma initialize_returns_iff_witness :
  exists (self' : PopulationBased) (g' : Rngs) (ev : list Event),
    _initialize (Demo.pbased Demo.counting 3 "cpu") (Some [Tree [8]]) Demo.g0
      = Ok (self', g', ev).
Proof.
  destruct (@initialize_returns_iff Demo.counters (Demo.pbased Demo.counting 3 "cpu")
              (Some [Tree [8]]) Demo.g0 (demo_parallel_arrays true))
    as [[_ Hret] _].
  apply Hret. split; [discriminate | reflexivity].
Defined.
End MoreConcreteRuns.

(** ** Configurations are never validated *)

Section ValidationFacts.
Import random_search population_based genetic_algorithm.





End ValidationFacts.
